(** * Receive side of the OpenMote CC2538 sniffer serial link

    A shallow embedding of [src/sniffer_serial_receive.cpp]: the HDLC-style
    framing state machine ([processByte], [receivedStartByte],
    [receivedEndByte], [addByteToBuffer]), the message decoder
    ([decodeReceivedMessage]) and the send-window handlers ([receivedACK],
    [receivedNACK], [receivedRESET], [receivedSTOP],
    [receivedInvalidMessage], [checkReceivedIndexAndSeqNr]).

    The namespace-level globals of the translation unit become the fields of
    one [State] record that every function takes and returns.  An array
    access outside the array is undefined in C++; here such a run yields
    [None].  Fixed-width integers are [Z] with the truncation written where
    the source assigns an [int] expression to a narrower variable. *)

From Stdlib Require Import ZArith List Lia.
From stdpp Require Import base decidable option numbers list.

Local Open Scope Z_scope.

(** ** Constants and helpers declared in the headers

    [sniffer_serial_receive.hpp] and [sniffer_serial_send.hpp] are not part of
    the sources at hand, so everything they declare is a field of [Config]
    and the development is parametric in it. *)

Record Config := mkConfig {
  HDLC_FLAG : Z;
  HDLC_ESCAPE : Z;
  HDLC_ESCAPE_MASK : Z;
  CRC_INIT : Z;
  SERIAL_RX_MAX_MESSAGE_LEN : Z;
  INVALID_RECEIVED_INDEX : Z;
  END_OF_BUFFER_BYTE : Z;
  BUFFER_SEQNR_OFFSET : Z;
  SerialDataType_Ack : Z;
  SerialDataType_Nack : Z;
  SerialDataType_Reset : Z;
  SerialDataType_Stop : Z;
  ACK_MESSAGE_LENGTH : Z;
  NACK_MESSAGE_LENGTH : Z;
  RESET_MESSAGE_LENGTH : Z;
  STOP_MESSAGE_LENGTH : Z;
  ACK_INDEX_OFFSET : Z;
  ACK_SEQNR_OFFSET : Z;
  NACK_INDEX_OFFSET : Z;
  NACK_SEQNR_OFFSET : Z;
  RESET_CHANNEL_OFFSET : Z;
  (* uint16_t crcCalculationStep(uint8_t byte, uint16_t crc) *)
  crcCalculationStep : Z -> Z -> Z;
  (* uint16_t readUint16(const uint8_t* array, index); [None] when the two
     bytes do not lie inside the array *)
  readUint16 : list Z -> Z -> option Z
}.

(** ** Hardware collaborators

    The four LEDs are output pins: [on()] and [off()] write the pin.  Calls
    into the interrupt controller, the radio and the transmit path are
    recorded, in program order, in a log. *)

Inductive Call :=
  | IntDisable_RFCORERTX
  | IntEnable_RFCORERTX
  | radio_setChannel (channel : Z)
  | sendReadyPacket
  | CC2538_RF_CSP_ISFLUSHRX
  | CC2538_RF_CSP_ISRXON.

(** ** The globals *)

Record State := mkState {
  receivingStatus : bool;
  escaping : bool;
  crc : Z;                      (* uint16_t *)
  message : list Z;             (* uint8_t[SERIAL_RX_MAX_MESSAGE_LEN] *)
  messageLen : Z;               (* uint8_t *)
  previousReceivedIndex : Z;    (* uint16_t *)
  buffer : list Z;              (* uint8_t[], declared with the send path *)
  bufferIndexRadio : Z;         (* uint16_t *)
  bufferIndexSerialSend : Z;    (* uint16_t *)
  bufferIndexAcked : Z;         (* uint16_t *)
  seqNr : Z;                    (* uint16_t *)
  led_green : bool;
  led_yellow : bool;
  led_orange : bool;
  led_red : bool;
  calls : list Call
}.

Definition set_receivingStatus (v : bool) (s : State) : State :=
  mkState v (escaping s) (crc s) (message s) (messageLen s)
    (previousReceivedIndex s) (buffer s) (bufferIndexRadio s)
    (bufferIndexSerialSend s) (bufferIndexAcked s) (seqNr s)
    (led_green s) (led_yellow s) (led_orange s) (led_red s) (calls s).

Definition set_escaping (v : bool) (s : State) : State :=
  mkState (receivingStatus s) v (crc s) (message s) (messageLen s)
    (previousReceivedIndex s) (buffer s) (bufferIndexRadio s)
    (bufferIndexSerialSend s) (bufferIndexAcked s) (seqNr s)
    (led_green s) (led_yellow s) (led_orange s) (led_red s) (calls s).

Definition set_crc (v : Z) (s : State) : State :=
  mkState (receivingStatus s) (escaping s) v (message s) (messageLen s)
    (previousReceivedIndex s) (buffer s) (bufferIndexRadio s)
    (bufferIndexSerialSend s) (bufferIndexAcked s) (seqNr s)
    (led_green s) (led_yellow s) (led_orange s) (led_red s) (calls s).

Definition set_message (v : list Z) (s : State) : State :=
  mkState (receivingStatus s) (escaping s) (crc s) v (messageLen s)
    (previousReceivedIndex s) (buffer s) (bufferIndexRadio s)
    (bufferIndexSerialSend s) (bufferIndexAcked s) (seqNr s)
    (led_green s) (led_yellow s) (led_orange s) (led_red s) (calls s).

Definition set_messageLen (v : Z) (s : State) : State :=
  mkState (receivingStatus s) (escaping s) (crc s) (message s) v
    (previousReceivedIndex s) (buffer s) (bufferIndexRadio s)
    (bufferIndexSerialSend s) (bufferIndexAcked s) (seqNr s)
    (led_green s) (led_yellow s) (led_orange s) (led_red s) (calls s).

Definition set_previousReceivedIndex (v : Z) (s : State) : State :=
  mkState (receivingStatus s) (escaping s) (crc s) (message s) (messageLen s)
    v (buffer s) (bufferIndexRadio s)
    (bufferIndexSerialSend s) (bufferIndexAcked s) (seqNr s)
    (led_green s) (led_yellow s) (led_orange s) (led_red s) (calls s).

Definition set_bufferIndexRadio (v : Z) (s : State) : State :=
  mkState (receivingStatus s) (escaping s) (crc s) (message s) (messageLen s)
    (previousReceivedIndex s) (buffer s) v
    (bufferIndexSerialSend s) (bufferIndexAcked s) (seqNr s)
    (led_green s) (led_yellow s) (led_orange s) (led_red s) (calls s).

Definition set_bufferIndexSerialSend (v : Z) (s : State) : State :=
  mkState (receivingStatus s) (escaping s) (crc s) (message s) (messageLen s)
    (previousReceivedIndex s) (buffer s) (bufferIndexRadio s)
    v (bufferIndexAcked s) (seqNr s)
    (led_green s) (led_yellow s) (led_orange s) (led_red s) (calls s).

Definition set_bufferIndexAcked (v : Z) (s : State) : State :=
  mkState (receivingStatus s) (escaping s) (crc s) (message s) (messageLen s)
    (previousReceivedIndex s) (buffer s) (bufferIndexRadio s)
    (bufferIndexSerialSend s) v (seqNr s)
    (led_green s) (led_yellow s) (led_orange s) (led_red s) (calls s).

Definition set_seqNr (v : Z) (s : State) : State :=
  mkState (receivingStatus s) (escaping s) (crc s) (message s) (messageLen s)
    (previousReceivedIndex s) (buffer s) (bufferIndexRadio s)
    (bufferIndexSerialSend s) (bufferIndexAcked s) v
    (led_green s) (led_yellow s) (led_orange s) (led_red s) (calls s).

(** [set_leds g y o r] writes the four pins at once. *)
Definition set_leds (g y o r : bool) (s : State) : State :=
  mkState (receivingStatus s) (escaping s) (crc s) (message s) (messageLen s)
    (previousReceivedIndex s) (buffer s) (bufferIndexRadio s)
    (bufferIndexSerialSend s) (bufferIndexAcked s) (seqNr s)
    g y o r (calls s).

(** [call c] appends [c] to the log of collaborator calls. *)
Definition call (c : Call) (s : State) : State :=
  mkState (receivingStatus s) (escaping s) (crc s) (message s) (messageLen s)
    (previousReceivedIndex s) (buffer s) (bufferIndexRadio s)
    (bufferIndexSerialSend s) (bufferIndexAcked s) (seqNr s)
    (led_green s) (led_yellow s) (led_orange s) (led_red s) (calls s ++ [c]).

(** ** Machine arithmetic and arrays *)

Definition wrap8 (z : Z) : Z := z mod 2 ^ 8.
Definition wrap16 (z : Z) : Z := z mod 2 ^ 16.

(** [a[i]] as an rvalue. *)
Definition arrayRead (a : list Z) (i : Z) : option Z :=
  if decide (0 <= i) then a !! Z.to_nat i else None.

(** [a[i] = v]. *)
Definition arrayWrite (a : list Z) (i v : Z) : option (list Z) :=
  if decide (0 <= i < Z.of_nat (length a))
  then Some (<[Z.to_nat i := v]> a) else None.

(** Whether the radio-receive interrupt is enabled after the calls [cs],
    when it was [b] before them. *)
Definition interruptEnabled (b : bool) (cs : list Call) : bool :=
  fold_left (fun b c => match c with
                        | IntDisable_RFCORERTX => false
                        | IntEnable_RFCORERTX => true
                        | _ => b
                        end) cs b.

(** ** The functions of [SerialReceive] *)

Section SerialReceive.

Variable cfg : Config.

Definition receivedStartByte (s : State) : State :=
  let s := set_receivingStatus true s in
  let s := set_escaping false s in
  let s := set_messageLen 0 s in
  set_crc (CRC_INIT cfg) s.

Definition receivedInvalidMessage (s : State) : State :=
  let s := set_leds (led_green s) (led_yellow s) true (led_red s) s in
  set_bufferIndexSerialSend (bufferIndexAcked s) s.

Definition checkReceivedIndexAndSeqNr
    (receivedIndex receivedSeqNr : Z) (s : State) : option bool :=
  let cachedBufferIndexRadio := bufferIndexRadio s in
  let checkSeqNr :=
    seqNrInBuffer ← readUint16 cfg (buffer s)
                      (receivedIndex + BUFFER_SEQNR_OFFSET cfg);
    if decide (seqNrInBuffer ≠ receivedSeqNr) then Some false else Some true in
  if decide (receivedIndex >= Z.of_nat (length (buffer s))) then Some false
  else if decide (bufferIndexAcked s > cachedBufferIndexRadio) then
    if decide (receivedIndex < bufferIndexAcked s
               ∧ receivedIndex > cachedBufferIndexRadio)
    then Some false else checkSeqNr
  else
    if decide (receivedIndex < bufferIndexAcked s
               ∨ receivedIndex > cachedBufferIndexRadio)
    then Some false else checkSeqNr.

Definition receivedACK (s : State) : option State :=
  receivedIndex ← readUint16 cfg (message s) (ACK_INDEX_OFFSET cfg);
  receivedSeqNr ← readUint16 cfg (message s) (ACK_SEQNR_OFFSET cfg);
  if decide (previousReceivedIndex s = receivedIndex) then Some s
  else
    valid ← checkReceivedIndexAndSeqNr receivedIndex receivedSeqNr s;
    if valid : bool then
      packetLength ← arrayRead (buffer s) receivedIndex;
      let s := set_bufferIndexAcked (wrap16 (receivedIndex + packetLength)) s in
      Some (set_previousReceivedIndex receivedIndex s)
    else Some (receivedInvalidMessage s).

(** The local [validIndex] of [receivedNACK]. *)
Definition validIndex (receivedIndex receivedSeqNr : Z) (s : State)
    : option bool :=
  if decide (previousReceivedIndex s = receivedIndex) then Some true
  else checkReceivedIndexAndSeqNr receivedIndex receivedSeqNr s.

Definition receivedNACK (s : State) : option State :=
  receivedIndex ← readUint16 cfg (message s) (NACK_INDEX_OFFSET cfg);
  receivedSeqNr ← readUint16 cfg (message s) (NACK_SEQNR_OFFSET cfg);
  valid ← validIndex receivedIndex receivedSeqNr s;
  if valid : bool then
    packetLength ← arrayRead (buffer s) receivedIndex;
    let s := set_bufferIndexAcked (wrap16 (receivedIndex + packetLength)) s in
    atAcked ← arrayRead (buffer s) (bufferIndexAcked s);
    let s := if decide (atAcked = END_OF_BUFFER_BYTE cfg)
             then set_bufferIndexAcked 0 s else s in
    let s := set_bufferIndexSerialSend (bufferIndexAcked s) s in
    Some (set_previousReceivedIndex receivedIndex s)
  else Some (receivedInvalidMessage s).

(** The part of [receivedRESET] and [receivedSTOP] under the comment
    "Empty buffer and reset sequence number". *)
Definition emptyBuffer (s : State) : State :=
  let s := set_bufferIndexRadio 0 s in
  let s := set_bufferIndexSerialSend 0 s in
  let s := set_bufferIndexAcked 0 s in
  set_seqNr 0 s.

Definition receivedRESET (s : State) : option State :=
  let s := call IntDisable_RFCORERTX s in
  let s := set_leds true false false false s in
  let s := emptyBuffer s in
  channel ← arrayRead (message s) (RESET_CHANNEL_OFFSET cfg);
  if decide (channel >= 11 ∧ channel <= 26) then
    let s := call (radio_setChannel channel) s in
    let s := call sendReadyPacket s in
    let s := call CC2538_RF_CSP_ISFLUSHRX s in
    let s := call IntEnable_RFCORERTX s in
    Some (call CC2538_RF_CSP_ISRXON s)
  else Some s.

Definition receivedSTOP (s : State) : State :=
  let s := call IntDisable_RFCORERTX s in
  let s := call CC2538_RF_CSP_ISFLUSHRX s in
  let s := set_leds false false false false s in
  emptyBuffer s.

(** Returns the [bool] of the source together with the state the handler
    left.  Both header bytes are read first; the source reads [message[1]]
    only when [message[0]] names a type, which differs only for an array of
    fewer than two bytes. *)
Definition decodeReceivedMessage (s : State) : option (bool * State) :=
  type ← arrayRead (message s) 0;
  len ← arrayRead (message s) 1;
  if decide (type = SerialDataType_Ack cfg ∧ len = ACK_MESSAGE_LENGTH cfg)
  then s' ← receivedACK s; Some (true, s')
  else if decide (type = SerialDataType_Nack cfg ∧ len = NACK_MESSAGE_LENGTH cfg)
  then s' ← receivedNACK s; Some (true, s')
  else if decide (type = SerialDataType_Reset cfg ∧ len = RESET_MESSAGE_LENGTH cfg)
  then s' ← receivedRESET s; Some (true, s')
  else if decide (type = SerialDataType_Stop cfg ∧ len = STOP_MESSAGE_LENGTH cfg)
  then Some (true, receivedSTOP s)
  else Some (false, s).

(** What [receivedEndByte] does once [validMessage] is known. *)
Definition finishFrame (validMessage : bool) (s : State) : State :=
  let s := if validMessage then s
           else set_bufferIndexSerialSend (bufferIndexAcked s) s in
  set_receivingStatus false s.

Definition receivedEndByte (s : State) : option State :=
  if decide (messageLen s = 0) then
    let s := receivedStartByte s in
    Some (set_bufferIndexSerialSend (bufferIndexAcked s) s)
  else
    '(validMessage, s) ←
      (if negb (escaping s) && bool_decide (messageLen s >= 4) then
         if decide (crc s = 0) then
           len ← arrayRead (message s) 1;
           if decide (messageLen s = len + 2)
           then decodeReceivedMessage s
           else Some (false, s)
         else Some (false, s)
       else Some (false, s));
    Some (finishFrame validMessage s).

Definition addByteToBuffer (byte : Z) (s : State) : option State :=
  if decide (byte = HDLC_ESCAPE cfg) then
    if negb (escaping s) then Some (set_escaping true s)
    else
      let s := set_bufferIndexSerialSend (bufferIndexAcked s) s in
      Some (set_receivingStatus false s)
  else
    let '(byte, s) :=
      if escaping s
      then (Z.lxor byte (HDLC_ESCAPE_MASK cfg), set_escaping false s)
      else (byte, s) in
    m ← arrayWrite (message s) (messageLen s) byte;
    let s := set_message m s in
    let s := set_messageLen (wrap8 (messageLen s + 1)) s in
    Some (set_crc (crcCalculationStep cfg byte (crc s)) s).

Definition processByte (byte : Z) (s : State) : option State :=
  if decide (byte = HDLC_FLAG cfg) then
    if receivingStatus s then receivedEndByte s
    else Some (receivedStartByte s)
  else
    if receivingStatus s
       && bool_decide (messageLen s < SERIAL_RX_MAX_MESSAGE_LEN cfg)
    then addByteToBuffer byte s
    else
      let s := set_bufferIndexSerialSend (bufferIndexAcked s) s in
      let s := set_receivingStatus false s in
      Some (set_messageLen 0 s).

(** The bytes [receive] hands to [processByte], oldest first. *)
Fixpoint processBytes (bytes : list Z) (s : State) : option State :=
  match bytes with
  | [] => Some s
  | byte :: rest => s' ← processByte byte s; processBytes rest s'
  end.

End SerialReceive.

(** ** The window of [checkReceivedIndexAndSeqNr], in the words of the design

    The valid window is the circular range from [acked] to [radio], both
    ends included.  When [acked > radio] the range wraps over the end of the
    buffer and only the gap strictly between [radio] and [acked] is outside;
    otherwise the range is the interval [[acked, radio]]. *)
Definition inWindow (acked radio index : Z) : bool :=
  if decide (acked > radio)
  then negb (bool_decide (radio < index < acked))
  else bool_decide (acked <= index <= radio).

(** The four conditions under which [receivedEndByte] hands a frame to the
    decoder; [len] is the length byte [message[1]]. *)
Definition frameAccepted (len : Z) (s : State) : Prop :=
  escaping s = false ∧ messageLen s >= 4 ∧ crc s = 0 ∧ messageLen s = len + 2.

(** ** A concrete instance, to run the functions on *)

Module Example.

(** Modelled from the spec: [readUint16] is declared in a header that is not
    at hand.  The wire format puts the low byte of an index or sequence
    number first, so the two bytes at [i] and [i + 1] are combined
    little-endian. *)
Definition readUint16_le (a : list Z) (i : Z) : option Z :=
  lo ← arrayRead a i;
  hi ← arrayRead a (i + 1);
  Some (Z.lor lo (Z.shiftl hi 8)).

(** Modelled from the spec: [crcCalculationStep] is declared in a header that
    is not at hand.  A 16-bit CRC, most significant bit first, without final
    inversion, so that a frame followed by its own CRC folds to zero. *)
Definition crc16_bit (c : Z) : Z :=
  if Z.testbit c 15
  then wrap16 (Z.lxor (Z.shiftl c 1) 0x1021)
  else wrap16 (Z.shiftl c 1).

Definition crc16_step (byte c : Z) : Z :=
  Nat.iter 8 crc16_bit (Z.lxor c (Z.shiftl byte 8)).

(** Modelled from the spec: the constants of the missing headers.  HDLC
    delimiter, escape and mask; [Ack] is type [0x01]; the length byte counts
    the payload and the two CRC bytes, as the length test of
    [receivedEndByte] requires ([messageLen = message[1] + 2]). *)
Definition config : Config :=
  {| HDLC_FLAG := 0x7E;
     HDLC_ESCAPE := 0x7D;
     HDLC_ESCAPE_MASK := 0x20;
     CRC_INIT := 0xFFFF;
     SERIAL_RX_MAX_MESSAGE_LEN := 16;
     INVALID_RECEIVED_INDEX := 0xFFFF;
     END_OF_BUFFER_BYTE := 0;
     BUFFER_SEQNR_OFFSET := 1;
     SerialDataType_Ack := 1;
     SerialDataType_Nack := 2;
     SerialDataType_Reset := 3;
     SerialDataType_Stop := 4;
     ACK_MESSAGE_LENGTH := 6;
     NACK_MESSAGE_LENGTH := 6;
     RESET_MESSAGE_LENGTH := 3;
     STOP_MESSAGE_LENGTH := 2;
     ACK_INDEX_OFFSET := 2;
     ACK_SEQNR_OFFSET := 4;
     NACK_INDEX_OFFSET := 2;
     NACK_SEQNR_OFFSET := 4;
     RESET_CHANNEL_OFFSET := 2;
     crcCalculationStep := crc16_step;
     readUint16 := readUint16_le |}.

(** Three packets in a 20-byte buffer: at 0 (length 5, sequence number 0),
    at 5 (length 4, sequence number 1) and at 9 (length 6, sequence number
    2); the byte at 15 is the end-of-buffer mark. *)
Definition packets : list Z :=
  [5; 0; 0; 170; 171;  4; 1; 0; 172;  6; 2; 0; 173; 174; 175;  0; 0; 0; 0; 0].

(** The CRC of a frame body, and the wire bytes of the frame after its
    opening delimiter (none of the bodies below needs escaping). *)
Definition crc16 (body : list Z) : Z :=
  fold_left (fun c byte => crc16_step byte c) body 0xFFFF.

Definition wire (body : list Z) : list Z :=
  body ++ [Z.shiftr (crc16 body) 8; Z.land (crc16 body) 0xFF].

(** The 16-byte message array holding [wire body], the rest zero. *)
Definition frame (body : list Z) : list Z :=
  take 16 (wire body ++ repeat 0 16).

(** Frame bodies: type, length byte, payload. *)
Definition ack (index seqnr : Z) : list Z := [1; 6; index; 0; seqnr; 0].
Definition nack (index seqnr : Z) : list Z := [2; 6; index; 0; seqnr; 0].
Definition reset (channel : Z) : list Z := [3; 3; channel].

(** The globals once the frame [body] has been received and before its
    closing delimiter: last processed index [prev], acked index [acked],
    radio index [radio], serial-send index [send]. *)
Definition state (body : list Z) (prev acked radio send : Z) : State :=
  {| receivingStatus := true; escaping := false; crc := 0;
     message := frame body;
     messageLen := Z.of_nat (length (wire body));
     previousReceivedIndex := prev;
     buffer := packets;
     bufferIndexRadio := radio;
     bufferIndexSerialSend := send;
     bufferIndexAcked := acked;
     seqNr := 3;
     led_green := true; led_yellow := false;
     led_orange := false; led_red := false;
     calls := [] |}.

(** The globals between two frames. *)
Definition idle (prev acked radio send : Z) : State :=
  {| receivingStatus := false; escaping := false; crc := 0;
     message := repeat 0 16;
     messageLen := 0;
     previousReceivedIndex := prev;
     buffer := packets;
     bufferIndexRadio := radio;
     bufferIndexSerialSend := send;
     bufferIndexAcked := acked;
     seqNr := 3;
     led_green := true; led_yellow := false;
     led_orange := false; led_red := false;
     calls := [] |}.

End Example.

(** ** The UART receive ring

    [uartRxBuffer] and its two indices are static to the translation unit.
    The interrupt handler [uartByteReceived] writes, the polled [receive]
    reads; here the two run one after the other, never interleaved.  The
    indices are [uint8_t]; [sizeof(uartRxBuffer)] is the length of the
    list. *)

Record Uart := mkUart {
  uartRxBuffer : list Z;           (* volatile uint8_t[SERIAL_RX_BUFFER_LEN] *)
  uartRxBufferIndexWrite : Z;      (* volatile uint8_t *)
  uartRxBufferIndexRead : Z        (* volatile uint8_t *)
}.

(** [index++; if (index == sizeof(uartRxBuffer)) index = 0;] *)
Definition ringNext (size index : Z) : Z :=
  let index := wrap8 (index + 1) in
  if decide (index = size) then 0 else index.

(** [byte] is what [uart.readByte()] returns. *)
Definition uartByteReceived (byte : Z) (u : Uart) : option Uart :=
  b ← arrayWrite (uartRxBuffer u) (uartRxBufferIndexWrite u) byte;
  Some (mkUart b
          (ringNext (Z.of_nat (length b)) (uartRxBufferIndexWrite u))
          (uartRxBufferIndexRead u)).

(** One interrupt per byte, oldest first. *)
Fixpoint uartBytesReceived (bytes : list Z) (u : Uart) : option Uart :=
  match bytes with
  | [] => Some u
  | byte :: rest => u' ← uartByteReceived byte u; uartBytesReceived rest u'
  end.

Section Receive.

Variable cfg : Config.

(** The loop of [receive], run for at most [fuel] iterations: [None] when
    the fuel runs out before the indices meet, and when an array is accessed
    outside its bounds. *)
Fixpoint receive (fuel : nat) (u : Uart) (s : State) : option (Uart * State) :=
  if decide (uartRxBufferIndexRead u ≠ uartRxBufferIndexWrite u) then
    match fuel with
    | O => None
    | S fuel =>
        byte ← arrayRead (uartRxBuffer u) (uartRxBufferIndexRead u);
        s ← processByte cfg byte s;
        receive fuel
          (mkUart (uartRxBuffer u) (uartRxBufferIndexWrite u)
             (ringNext (Z.of_nat (length (uartRxBuffer u)))
                (uartRxBufferIndexRead u)))
          s
    end
  else Some (u, s).

(** The globals when the opening delimiter and then the bytes [data], none
    of them special, have been processed: [data] at the start of the message
    array and its CRC in [crc]. *)
Definition loaded (data : list Z) (s : State) : State :=
  let s := receivedStartByte cfg s in
  let s := set_message (data ++ drop (length data) (message s)) s in
  let s := set_messageLen (Z.of_nat (length data)) s in
  set_crc (fold_left (λ c byte, crcCalculationStep cfg byte c) data (crc s)) s.

End Receive.

(** The ring is usable: at most 256 slots, so that a [uint8_t] can index
    every one, and both indices on a slot. *)
Definition ringOk (u : Uart) : Prop :=
  Z.of_nat (length (uartRxBuffer u)) <= 256
  ∧ 0 <= uartRxBufferIndexRead u < Z.of_nat (length (uartRxBuffer u))
  ∧ 0 <= uartRxBufferIndexWrite u < Z.of_nat (length (uartRxBuffer u)).

(** The bytes written and not yet read: from the read index up to the write
    index, round the end of the array when the write index is behind. *)
Definition pending (u : Uart) : list Z :=
  let r := Z.to_nat (uartRxBufferIndexRead u) in
  let w := Z.to_nat (uartRxBufferIndexWrite u) in
  if decide (uartRxBufferIndexRead u <= uartRxBufferIndexWrite u)
  then take (w - r) (drop r (uartRxBuffer u))
  else drop r (uartRxBuffer u) ++ take w (uartRxBuffer u).

(** What no byte changes: the packet buffer and the size of the message
    array stay as they are, and the radio index and the sequence number go
    to zero or stay. *)
Definition sameBuffers (s s' : State) : Prop :=
  buffer s' = buffer s
  ∧ length (message s') = length (message s)
  ∧ (bufferIndexRadio s' = bufferIndexRadio s ∨ bufferIndexRadio s' = 0)
  ∧ (seqNr s' = seqNr s ∨ seqNr s' = 0).

Module RingExample.

(** A ring of eight slots holding 11, 12, 13 from slot 6 round to slot 0. *)
Definition ring : Uart :=
  {| uartRxBuffer := [13; 0; 0; 0; 0; 0; 11; 12];
     uartRxBufferIndexWrite := 1;
     uartRxBufferIndexRead := 6 |}.

(** A ring of eight slots with seven unread bytes, from slot 3 round to
    slot 1. *)
Definition full : Uart :=
  {| uartRxBuffer := [26; 27; 0; 21; 22; 23; 24; 25];
     uartRxBufferIndexWrite := 2;
     uartRxBufferIndexRead := 3 |}.

(** An empty ring of eight slots. *)
Definition empty : Uart :=
  {| uartRxBuffer := [0; 0; 0; 0; 0; 0; 0; 0];
     uartRxBufferIndexWrite := 5;
     uartRxBufferIndexRead := 5 |}.

End RingExample.

(** * Properties *)

(** ** The example runs

    The framing state machine takes the wire bytes of an Ack for the packet
    at 5 from the idle state to [Example.state], and the closing delimiter
    then moves [bufferIndexAcked] past that packet. *)
Example example_frame_received :
  processBytes Example.config (0x7E :: Example.wire (Example.ack 5 1))
    (Example.idle 0 5 9 9)
  = Some (Example.state (Example.ack 5 1) 0 5 9 9).
Proof. reflexivity. Qed.

Example example_frame_closed :
  processByte Example.config 0x7E (Example.state (Example.ack 5 1) 0 5 9 9)
  = Some (set_receivingStatus false
            (Example.state (Example.ack 5 1) 5 9 9 9)).
Proof. reflexivity. Qed.

(** ** Index and sequence-number validation *)

Section Validation.

Variable cfg : Config.

(** The code computes the window of the design: an index is accepted exactly
    when it lies inside the buffer and inside the window and the stored
    sequence number is the received one. *)
Lemma checkReceivedIndexAndSeqNr_spec (index seqnr : Z) (s : State) :
  checkReceivedIndexAndSeqNr cfg index seqnr s =
    if decide (index >= Z.of_nat (length (buffer s))) then Some false
    else if inWindow (bufferIndexAcked s) (bufferIndexRadio s) index
    then stored ← readUint16 cfg (buffer s) (index + BUFFER_SEQNR_OFFSET cfg);
         Some (bool_decide (stored = seqnr))
    else Some false.
Proof.
  unfold checkReceivedIndexAndSeqNr, inWindow.
  destruct (readUint16 cfg (buffer s) _) as [stored|]; simpl;
    repeat (case_decide || case_bool_decide); simpl;
    try reflexivity; try lia; try contradiction.
Qed.

Lemma inWindow_acked (acked radio : Z) : inWindow acked radio acked = true.
Proof.
  unfold inWindow. repeat (case_decide || case_bool_decide); simpl; auto; lia.
Qed.

Lemma inWindow_radio (acked radio : Z) : inWindow acked radio radio = true.
Proof.
  unfold inWindow. repeat (case_decide || case_bool_decide); simpl; auto; lia.
Qed.

Lemma inWindow_below_acked (acked radio index : Z) :
  index + 1 = acked -> index ≠ radio -> inWindow acked radio index = false.
Proof.
  unfold inWindow. intros.
  repeat (case_decide || case_bool_decide); simpl; auto; lia.
Qed.

Lemma inWindow_above_radio (acked radio index : Z) :
  index = radio + 1 -> index ≠ acked -> inWindow acked radio index = false.
Proof.
  unfold inWindow. intros.
  repeat (case_decide || case_bool_decide); simpl; auto; lia.
Qed.

End Validation.

(** C2.  Whatever the state of the window controller: an index at or past
    the size of the buffer is rejected; an index inside the buffer that
    equals [bufferIndexAcked] or the snapshot of [bufferIndexRadio] is
    accepted when the stored sequence number is the received one, in the
    wrapped and in the non-wrapped case alike; the index next below
    [bufferIndexAcked] and the index next above the snapshot are rejected
    when they are outside the window (that is, unless they are the other end
    of it); and an accepted index lies inside the buffer and the window and
    carries the received sequence number, a different stored sequence
    number making the check fail. *)
Theorem window_validation_boundaries (cfg : Config) (s : State) (seqnr : Z) :
  let size := Z.of_nat (length (buffer s)) in
  let acked := bufferIndexAcked s in
  let radio := bufferIndexRadio s in
  let stored i := readUint16 cfg (buffer s) (i + BUFFER_SEQNR_OFFSET cfg) in
  let check i := checkReceivedIndexAndSeqNr cfg i seqnr s in
  (∀ i, i >= size → check i = Some false) ∧
  (∀ i, i < size → i = acked ∨ i = radio → stored i = Some seqnr →
        check i = Some true) ∧
  (∀ i, i + 1 = acked → i ≠ radio → check i = Some false) ∧
  (∀ i, i = radio + 1 → i ≠ acked → check i = Some false) ∧
  (∀ i, check i = Some true →
        i < size ∧ inWindow acked radio i = true ∧ stored i = Some seqnr) ∧
  (∀ i v, i < size → inWindow acked radio i = true → stored i = Some v →
          v ≠ seqnr → check i = Some false).
Proof.
  cbv zeta. repeat split.
  - intros i Hi. rewrite checkReceivedIndexAndSeqNr_spec.
    case_decide; [reflexivity | lia].
  - intros i Hi Hend Hseq. rewrite checkReceivedIndexAndSeqNr_spec.
    case_decide; [lia |].
    assert (inWindow (bufferIndexAcked s) (bufferIndexRadio s) i = true) as ->
      by (destruct Hend as [-> | ->];
          [apply inWindow_acked | apply inWindow_radio]).
    rewrite Hseq. simpl. by rewrite bool_decide_eq_true_2.
  - intros i Hi Hne. rewrite checkReceivedIndexAndSeqNr_spec.
    case_decide; [reflexivity |].
    by rewrite (inWindow_below_acked _ _ _ Hi Hne).
  - intros i Hi Hne. rewrite checkReceivedIndexAndSeqNr_spec.
    case_decide; [reflexivity |].
    by rewrite (inWindow_above_radio _ _ _ Hi Hne).
  - revert H. rewrite checkReceivedIndexAndSeqNr_spec.
    case_decide; [discriminate | lia].
  - revert H. rewrite checkReceivedIndexAndSeqNr_spec.
    case_decide; [discriminate |].
    by destruct (inWindow _ _ _).
  - revert H. rewrite checkReceivedIndexAndSeqNr_spec.
    case_decide; [discriminate |].
    destruct (inWindow _ _ _); [| discriminate].
    destruct (readUint16 _ _ _) as [v|]; simpl; [| discriminate].
    case_bool_decide; [congruence | discriminate].
  - intros i v Hi Hin Hv Hne. rewrite checkReceivedIndexAndSeqNr_spec.
    case_decide; [reflexivity |].
    rewrite Hin, Hv. simpl. by rewrite bool_decide_eq_false_2.
Qed.

(** The packets of [Example.packets] with the window from 5 to 9, then with
    the wrapped window from 9 round to 5. *)
Lemma window_validation_boundaries_witness :
  checkReceivedIndexAndSeqNr Example.config 5 1
    (Example.state (Example.ack 5 1) 0 5 9 5) = Some true ∧
  checkReceivedIndexAndSeqNr Example.config 9 2
    (Example.state (Example.ack 5 1) 0 5 9 5) = Some true ∧
  checkReceivedIndexAndSeqNr Example.config 4 1
    (Example.state (Example.ack 5 1) 0 5 9 5) = Some false ∧
  checkReceivedIndexAndSeqNr Example.config 10 2
    (Example.state (Example.ack 5 1) 0 5 9 5) = Some false ∧
  checkReceivedIndexAndSeqNr Example.config 20 2
    (Example.state (Example.ack 5 1) 0 5 9 5) = Some false ∧
  checkReceivedIndexAndSeqNr Example.config 9 2
    (Example.state (Example.ack 5 1) 0 9 5 9) = Some true ∧
  checkReceivedIndexAndSeqNr Example.config 5 1
    (Example.state (Example.ack 5 1) 0 9 5 9) = Some true ∧
  checkReceivedIndexAndSeqNr Example.config 8 2
    (Example.state (Example.ack 5 1) 0 9 5 9) = Some false ∧
  checkReceivedIndexAndSeqNr Example.config 6 1
    (Example.state (Example.ack 5 1) 0 9 5 9) = Some false.
Proof.
  pose (s := Example.state (Example.ack 5 1) 0 5 9 5).
  pose (w := Example.state (Example.ack 5 1) 0 9 5 9).
  destruct (window_validation_boundaries Example.config s 1)
    as (_ & Hs1_ends & Hs1_low & _).
  destruct (window_validation_boundaries Example.config s 2)
    as (Hs2_cap & Hs2_ends & _ & Hs2_high & _).
  destruct (window_validation_boundaries Example.config w 1)
    as (_ & Hw1_ends & _ & Hw1_high & _).
  destruct (window_validation_boundaries Example.config w 2)
    as (_ & Hw2_ends & Hw2_low & _).
  repeat apply conj.
  - apply Hs1_ends; [reflexivity | left; reflexivity | reflexivity].
  - apply Hs2_ends; [reflexivity | right; reflexivity | reflexivity].
  - apply Hs1_low; [reflexivity | discriminate].
  - apply Hs2_high; [reflexivity | discriminate].
  - apply Hs2_cap. discriminate.
  - apply Hw2_ends; [reflexivity | left; reflexivity | reflexivity].
  - apply Hw1_ends; [reflexivity | right; reflexivity | reflexivity].
  - apply Hw2_low; [reflexivity | discriminate].
  - apply Hw1_high; [reflexivity | discriminate].
Defined.

(** ** End of frame *)

Section Framing.

Variable cfg : Config.

Lemma processByte_flag_receiving (s : State) :
  receivingStatus s = true →
  processByte cfg (HDLC_FLAG cfg) s = receivedEndByte cfg s.
Proof.
  intros Hrecv. unfold processByte.
  case_decide; [| contradiction]. by rewrite Hrecv.
Qed.

(** The checks in front of the decoder, as one case distinction on
    [frameAccepted]. *)
Lemma receivedEndByte_checks (len : Z) (s : State) :
  messageLen s ≠ 0 →
  arrayRead (message s) 1 = Some len →
  receivedEndByte cfg s =
    '(validMessage, s') ←
       (if decide (frameAccepted len s)
        then decodeReceivedMessage cfg s else Some (false, s));
    Some (finishFrame validMessage s').
Proof.
  intros Hlen Hread. unfold receivedEndByte, frameAccepted.
  case_decide; [contradiction |].
  rewrite Hread. simpl.
  destruct (escaping s); simpl;
    repeat (case_decide || case_bool_decide); simpl;
    try reflexivity; exfalso; intuition (congruence || lia).
Qed.

(** The decoder returns false only when no handler has run. *)
Lemma decodeReceivedMessage_false (s s1 : State) :
  decodeReceivedMessage cfg s = Some (false, s1) → s1 = s.
Proof.
  unfold decodeReceivedMessage.
  destruct (arrayRead (message s) 0) as [type|]; simpl; [| discriminate].
  destruct (arrayRead (message s) 1) as [len|]; simpl; [| discriminate].
  repeat case_decide;
    try (destruct (receivedACK cfg s); simpl; discriminate);
    try (destruct (receivedNACK cfg s); simpl; discriminate);
    try (destruct (receivedRESET cfg s); simpl; discriminate);
    try discriminate.
  by intros [= <-].
Qed.

Lemma receivingStatus_finishFrame (validMessage : bool) (s : State) :
  receivingStatus (finishFrame validMessage s) = false.
Proof. reflexivity. Qed.

End Framing.

(** C1.  An end delimiter arrives while a frame of at least one byte is being
    received, [len] being the length byte [message[1]].  When the frame is
    not mid-escape, has at least four bytes, has a CRC of zero and has
    [len + 2] bytes, the outcome is that of the decoder followed by the end
    of the handler; when one of the four fails, the decoder is left out and
    the frame is finished as invalid.  In every case [receivingStatus] ends
    up false, and whenever a check failed or the decoder returned false,
    [bufferIndexSerialSend] has been set to [bufferIndexAcked]. *)
Theorem end_of_frame_dispatch (cfg : Config) (len : Z) (s : State) :
  receivingStatus s = true →
  messageLen s > 0 →
  arrayRead (message s) 1 = Some len →
  let result := processByte cfg (HDLC_FLAG cfg) s in
  (frameAccepted len s →
     result = '(validMessage, s') ← decodeReceivedMessage cfg s;
              Some (finishFrame validMessage s')) ∧
  (¬ frameAccepted len s → result = Some (finishFrame false s)) ∧
  (∀ s', result = Some s' → receivingStatus s' = false) ∧
  (∀ s', result = Some s' →
         ¬ frameAccepted len s
         ∨ (∃ s1, decodeReceivedMessage cfg s = Some (false, s1)) →
         bufferIndexSerialSend s' = bufferIndexAcked s'
         ∧ bufferIndexAcked s' = bufferIndexAcked s).
Proof.
  intros Hrecv Hlen Hread. cbv zeta.
  rewrite (processByte_flag_receiving cfg s Hrecv).
  rewrite (receivedEndByte_checks cfg len s) by (done || lia).
  repeat apply conj.
  - intros Hacc. by rewrite decide_True.
  - intros Hrej. by rewrite decide_False.
  - intros s'. case_decide.
    + destruct (decodeReceivedMessage cfg s) as [[v t]|]; simpl;
        [| discriminate].
      intros [= <-]. apply receivingStatus_finishFrame.
    + simpl. intros [= <-]. reflexivity.
  - intros s' Hres Hfail. revert Hres. case_decide.
    + destruct Hfail as [Hrej | [s1 Hdec]]; [contradiction |].
      rewrite Hdec. simpl. intros [= <-].
      by rewrite (decodeReceivedMessage_false cfg s s1 Hdec).
    + simpl. by intros [= <-].
Qed.

(** The Ack of [example_frame_closed] is decoded; the same frame with length
    byte 7 is finished as invalid, the serial-send index going back to 5. *)
Lemma end_of_frame_dispatch_witness :
  processByte Example.config 0x7E (Example.state (Example.ack 5 1) 0 5 9 9)
  = Some (set_receivingStatus false
            (Example.state (Example.ack 5 1) 5 9 9 9)) ∧
  processByte Example.config 0x7E (Example.state [1; 7; 5; 0; 1; 0] 0 5 9 9)
  = Some (set_receivingStatus false
            (Example.state [1; 7; 5; 0; 1; 0] 0 5 9 5)).
Proof.
  split.
  - destruct (end_of_frame_dispatch Example.config 6
                (Example.state (Example.ack 5 1) 0 5 9 9)
                eq_refl eq_refl eq_refl) as (Haccepted & _).
    cbv zeta in Haccepted. change (HDLC_FLAG Example.config) with 0x7E in *.
    rewrite Haccepted; [reflexivity |].
    repeat apply conj; try reflexivity; discriminate.
  - destruct (end_of_frame_dispatch Example.config 7
                (Example.state [1; 7; 5; 0; 1; 0] 0 5 9 9)
                eq_refl eq_refl eq_refl) as (_ & Hrejected & _).
    cbv zeta in Hrejected. change (HDLC_FLAG Example.config) with 0x7E in *.
    rewrite Hrejected; [reflexivity |].
    intros (_ & _ & _ & Hlen). discriminate Hlen.
Defined.

(** C8.  While receiving, a delimiter that arrives with [messageLen = 0] is
    handled as a start of frame: the state is that of [receivedStartByte]
    (still receiving, not escaping, no bytes, CRC at its initial value) with
    [bufferIndexSerialSend] set to [bufferIndexAcked].  No handler runs: the
    message, the buffer, the other indices, the last processed index, the
    LEDs and the call log are as before. *)
Theorem empty_frame_restarts (cfg : Config) (s : State) :
  receivingStatus s = true →
  messageLen s = 0 →
  ∃ s', processByte cfg (HDLC_FLAG cfg) s = Some s'
    ∧ s' = set_bufferIndexSerialSend (bufferIndexAcked s) (receivedStartByte cfg s)
    ∧ receivingStatus s' = true ∧ escaping s' = false
    ∧ messageLen s' = 0 ∧ crc s' = CRC_INIT cfg
    ∧ bufferIndexSerialSend s' = bufferIndexAcked s'
    ∧ bufferIndexAcked s' = bufferIndexAcked s
    ∧ bufferIndexRadio s' = bufferIndexRadio s
    ∧ seqNr s' = seqNr s
    ∧ previousReceivedIndex s' = previousReceivedIndex s
    ∧ message s' = message s ∧ buffer s' = buffer s
    ∧ (led_green s', led_yellow s', led_orange s', led_red s')
      = (led_green s, led_yellow s, led_orange s, led_red s)
    ∧ calls s' = calls s.
Proof.
  intros Hrecv Hlen. eexists. split.
  - rewrite (processByte_flag_receiving cfg s Hrecv).
    unfold receivedEndByte. rewrite decide_True by exact Hlen. reflexivity.
  - repeat apply conj; reflexivity.
Qed.

(** Two delimiters in a row: the second one finds the state the first one
    left. *)
Lemma empty_frame_restarts_witness :
  processBytes Example.config [0x7E; 0x7E] (Example.idle 0 5 9 9)
  = Some (receivedStartByte Example.config (Example.idle 0 5 9 5)).
Proof.
  destruct (empty_frame_restarts Example.config
              (receivedStartByte Example.config (Example.idle 0 5 9 9))
              eq_refl eq_refl) as (s' & Hrun & -> & _).
  change (HDLC_FLAG Example.config) with 0x7E in Hrun.
  change (processBytes Example.config [0x7E; 0x7E] (Example.idle 0 5 9 9))
    with (s1 ← processByte Example.config 0x7E
                 (receivedStartByte Example.config (Example.idle 0 5 9 9));
          Some s1).
  rewrite Hrun. reflexivity.
Defined.

(** ** Ack and Nack *)

Section Window.

Variable cfg : Config.

(** The check reads the buffer, the acked index and the radio index only. *)
Lemma checkReceivedIndexAndSeqNr_ext (index seqnr : Z) (s t : State) :
  buffer t = buffer s →
  bufferIndexAcked t = bufferIndexAcked s →
  bufferIndexRadio t = bufferIndexRadio s →
  checkReceivedIndexAndSeqNr cfg index seqnr t
  = checkReceivedIndexAndSeqNr cfg index seqnr s.
Proof.
  intros Hbuf Hacked Hradio. unfold checkReceivedIndexAndSeqNr.
  by rewrite Hbuf, Hacked, Hradio.
Qed.

(** Signalling an invalid message twice is the same as signalling it once. *)
Lemma receivedInvalidMessage_idemp (s : State) :
  receivedInvalidMessage (receivedInvalidMessage s) = receivedInvalidMessage s.
Proof. reflexivity. Qed.

(** [receivedACK] once the index and the sequence number are read. *)
Lemma receivedACK_read (index seqnr : Z) (s : State) :
  readUint16 cfg (message s) (ACK_INDEX_OFFSET cfg) = Some index →
  readUint16 cfg (message s) (ACK_SEQNR_OFFSET cfg) = Some seqnr →
  receivedACK cfg s =
    if decide (previousReceivedIndex s = index) then Some s
    else
      valid ← checkReceivedIndexAndSeqNr cfg index seqnr s;
      if valid : bool then
        packetLength ← arrayRead (buffer s) index;
        Some (set_previousReceivedIndex index
                (set_bufferIndexAcked (wrap16 (index + packetLength)) s))
      else Some (receivedInvalidMessage s).
Proof. intros Hindex Hseqnr. unfold receivedACK. by rewrite Hindex, Hseqnr. Qed.

(** [receivedNACK] once the index and the sequence number are read. *)
Lemma receivedNACK_read (index seqnr : Z) (s : State) :
  readUint16 cfg (message s) (NACK_INDEX_OFFSET cfg) = Some index →
  readUint16 cfg (message s) (NACK_SEQNR_OFFSET cfg) = Some seqnr →
  receivedNACK cfg s =
    valid ← validIndex cfg index seqnr s;
    if valid : bool then
      packetLength ← arrayRead (buffer s) index;
      atAcked ← arrayRead (buffer s) (wrap16 (index + packetLength));
      let acked := if decide (atAcked = END_OF_BUFFER_BYTE cfg)
                   then 0 else wrap16 (index + packetLength) in
      Some (set_previousReceivedIndex index
              (set_bufferIndexSerialSend acked (set_bufferIndexAcked acked s)))
    else Some (receivedInvalidMessage s).
Proof.
  intros Hindex Hseqnr. unfold receivedNACK. rewrite Hindex, Hseqnr. simpl.
  destruct (validIndex cfg index seqnr s) as [[|]|]; simpl; try reflexivity.
  destruct (arrayRead (buffer s) index) as [len|]; simpl; try reflexivity.
  destruct (arrayRead (buffer s) (wrap16 (index + len))) as [b|]; simpl;
    try reflexivity.
  by case_decide.
Qed.

(** The early return of [receivedACK]. *)
Lemma receivedACK_same_index (seqnr : Z) (s : State) :
  readUint16 cfg (message s) (ACK_INDEX_OFFSET cfg)
    = Some (previousReceivedIndex s) →
  readUint16 cfg (message s) (ACK_SEQNR_OFFSET cfg) = Some seqnr →
  receivedACK cfg s = Some s.
Proof.
  intros Hindex Hseqnr.
  rewrite (receivedACK_read _ seqnr s Hindex Hseqnr).
  by rewrite decide_True.
Qed.

Lemma arrayRead_bounds (a : list Z) (i v : Z) :
  arrayRead a i = Some v → 0 <= i < Z.of_nat (length a).
Proof.
  unfold arrayRead. case_decide; [| discriminate].
  intros Hlookup. apply lookup_lt_Some in Hlookup. lia.
Qed.

Lemma wrap16_small (z : Z) : 0 <= z < 2 ^ 16 → wrap16 z = z.
Proof. intros. unfold wrap16. by apply Z.mod_small. Qed.

End Window.

(** C3.  A Nack whose index is accepted ([validIndex] is true) and whose two
    buffer reads are inside the buffer, the buffer being no larger than the
    range of the 16-bit indices: afterwards [bufferIndexAcked] is
    [receivedIndex + buffer[receivedIndex]], or 0 when the byte at that
    position is [END_OF_BUFFER_BYTE]; [bufferIndexSerialSend] equals the new
    [bufferIndexAcked]; [previousReceivedIndex] is [receivedIndex]. *)
Theorem nack_accepted_moves_window
    (cfg : Config) (s : State) (index seqnr packetLength atAcked : Z) :
  readUint16 cfg (message s) (NACK_INDEX_OFFSET cfg) = Some index →
  readUint16 cfg (message s) (NACK_SEQNR_OFFSET cfg) = Some seqnr →
  validIndex cfg index seqnr s = Some true →
  arrayRead (buffer s) index = Some packetLength →
  arrayRead (buffer s) (index + packetLength) = Some atAcked →
  Z.of_nat (length (buffer s)) <= 2 ^ 16 →
  ∃ s', receivedNACK cfg s = Some s'
    ∧ bufferIndexAcked s' =
        (if decide (atAcked = END_OF_BUFFER_BYTE cfg)
         then 0 else index + packetLength)
    ∧ bufferIndexSerialSend s' = bufferIndexAcked s'
    ∧ previousReceivedIndex s' = index.
Proof.
  intros Hindex Hseqnr Hvalid Hlen Hat Hsize.
  assert (wrap16 (index + packetLength) = index + packetLength) as Hwrap.
  { apply wrap16_small. apply arrayRead_bounds in Hat. lia. }
  eexists. split.
  - rewrite (receivedNACK_read cfg index seqnr s Hindex Hseqnr).
    rewrite Hvalid. simpl. rewrite Hlen. simpl. rewrite Hwrap, Hat. simpl.
    reflexivity.
  - simpl. by case_decide.
Qed.

(** A Nack for the packet at 5, which ends at 9 where the next packet
    starts, and a Nack for the packet at 9, which ends at the end-of-buffer
    mark. *)
Lemma nack_accepted_moves_window_witness :
  (∃ s', receivedNACK Example.config
           (Example.state (Example.nack 5 1) 0 5 9 5) = Some s'
     ∧ bufferIndexAcked s' = 9
     ∧ bufferIndexSerialSend s' = bufferIndexAcked s'
     ∧ previousReceivedIndex s' = 5) ∧
  (∃ s', receivedNACK Example.config
           (Example.state (Example.nack 9 2) 5 9 9 9) = Some s'
     ∧ bufferIndexAcked s' = 0
     ∧ bufferIndexSerialSend s' = bufferIndexAcked s'
     ∧ previousReceivedIndex s' = 9).
Proof.
  split.
  - refine (nack_accepted_moves_window Example.config
              (Example.state (Example.nack 5 1) 0 5 9 5) 5 1 4 6
              eq_refl eq_refl eq_refl eq_refl eq_refl _).
    discriminate.
  - refine (nack_accepted_moves_window Example.config
              (Example.state (Example.nack 9 2) 5 9 9 9) 9 2 6 0
              eq_refl eq_refl eq_refl eq_refl eq_refl _).
    discriminate.
Defined.

(** C9.  An Ack whose index is [previousReceivedIndex] returns at once: the
    state, the fault LED included, is as before, whatever the received
    sequence number and wherever the index lies with respect to the
    window. *)
Theorem duplicate_ack_ignored (cfg : Config) (s : State) (seqnr : Z) :
  readUint16 cfg (message s) (ACK_INDEX_OFFSET cfg)
    = Some (previousReceivedIndex s) →
  readUint16 cfg (message s) (ACK_SEQNR_OFFSET cfg) = Some seqnr →
  receivedACK cfg s = Some s.
Proof.
  exact (receivedACK_same_index cfg seqnr s).
Qed.

(** An Ack for index 0 with sequence number 99, after the window has moved
    on to 5..9: the shared check rejects it, the Ack handler ignores it. *)
Lemma duplicate_ack_ignored_witness :
  checkReceivedIndexAndSeqNr Example.config 0 99
    (Example.state (Example.ack 0 99) 0 5 9 9) = Some false ∧
  receivedACK Example.config (Example.state (Example.ack 0 99) 0 5 9 9)
  = Some (Example.state (Example.ack 0 99) 0 5 9 9).
Proof.
  split; [reflexivity |].
  exact (duplicate_ack_ignored Example.config
           (Example.state (Example.ack 0 99) 0 5 9 9) 99 eq_refl eq_refl).
Defined.

(** C4.  When an Ack has been processed, processing the same Ack again
    changes nothing: the second run returns the state it was given, so
    [bufferIndexAcked] and [previousReceivedIndex] keep the values the first
    run left. *)
Theorem ack_twice_idempotent (cfg : Config) (s s1 : State) :
  receivedACK cfg s = Some s1 →
  ∃ s2, receivedACK cfg s1 = Some s2
    ∧ bufferIndexAcked s2 = bufferIndexAcked s1
    ∧ previousReceivedIndex s2 = previousReceivedIndex s1
    ∧ s2 = s1.
Proof.
  intros Hfirst. exists s1. split; [| done].
  destruct (readUint16 cfg (message s) (ACK_INDEX_OFFSET cfg))
    as [index|] eqn:Hindex;
    [| unfold receivedACK in Hfirst; by rewrite Hindex in Hfirst].
  destruct (readUint16 cfg (message s) (ACK_SEQNR_OFFSET cfg))
    as [seqnr|] eqn:Hseqnr;
    [| unfold receivedACK in Hfirst; by rewrite Hindex, Hseqnr in Hfirst].
  rewrite (receivedACK_read cfg index seqnr s Hindex Hseqnr) in Hfirst.
  case_decide as Hprev.
  - injection Hfirst as <-. apply (receivedACK_same_index cfg seqnr s);
      congruence.
  - destruct (checkReceivedIndexAndSeqNr cfg index seqnr s)
      as [[|]|] eqn:Hcheck; simpl in Hfirst; [| | discriminate].
    + destruct (arrayRead (buffer s) index) as [len|]; simpl in Hfirst;
        [| discriminate].
      injection Hfirst as <-.
      by apply (receivedACK_same_index cfg seqnr).
    + injection Hfirst as <-.
      rewrite (receivedACK_read cfg index seqnr (receivedInvalidMessage s))
        by done.
      rewrite decide_False by done.
      rewrite (checkReceivedIndexAndSeqNr_ext cfg index seqnr s) by done.
      by rewrite Hcheck.
Qed.

(** The Ack of [example_frame_closed], delivered a second time; and an Ack
    for index 10, outside the window 5..9, delivered a second time. *)
Lemma ack_twice_idempotent_witness :
  receivedACK Example.config (Example.state (Example.ack 5 1) 5 9 9 9)
  = Some (Example.state (Example.ack 5 1) 5 9 9 9) ∧
  receivedACK Example.config
    (receivedInvalidMessage (Example.state (Example.ack 10 2) 0 5 9 9))
  = Some (receivedInvalidMessage (Example.state (Example.ack 10 2) 0 5 9 9)).
Proof.
  split.
  - destruct (ack_twice_idempotent Example.config
                (Example.state (Example.ack 5 1) 0 5 9 9)
                (Example.state (Example.ack 5 1) 5 9 9 9) eq_refl)
      as (s2 & Hsecond & _ & _ & ->).
    exact Hsecond.
  - destruct (ack_twice_idempotent Example.config
                (Example.state (Example.ack 10 2) 0 5 9 9)
                (receivedInvalidMessage
                   (Example.state (Example.ack 10 2) 0 5 9 9)) eq_refl)
      as (s2 & Hsecond & _ & _ & ->).
    exact Hsecond.
Defined.

(** C5.  A Nack whose index is [previousReceivedIndex] is accepted without
    the shared check, for every received sequence number: [validIndex] is
    true, and the handler does what it does for a valid index whatever
    [checkReceivedIndexAndSeqNr] would have answered.  It reads the packet
    length at the index and the byte behind the packet, moves
    [bufferIndexAcked] behind the packet (or to 0 at the end-of-buffer
    byte), sets [bufferIndexSerialSend] to it and records the index; the
    fault LED is left alone.  For any other index [validIndex] is the
    result of [checkReceivedIndexAndSeqNr], which alone decides between
    the same acceptance and [receivedInvalidMessage]. *)
Theorem nack_repeat_skips_validation
    (cfg : Config) (s : State) (index seqnr : Z) :
  readUint16 cfg (message s) (NACK_INDEX_OFFSET cfg) = Some index →
  readUint16 cfg (message s) (NACK_SEQNR_OFFSET cfg) = Some seqnr →
  (previousReceivedIndex s = index →
     validIndex cfg index seqnr s = Some true
     ∧ receivedNACK cfg s =
         (packetLength ← arrayRead (buffer s) index;
          atAcked ← arrayRead (buffer s) (wrap16 (index + packetLength));
          let acked := if decide (atAcked = END_OF_BUFFER_BYTE cfg)
                       then 0 else wrap16 (index + packetLength) in
          Some (set_previousReceivedIndex index
                  (set_bufferIndexSerialSend acked
                     (set_bufferIndexAcked acked s))))
     ∧ ∀ s', receivedNACK cfg s = Some s' →
             previousReceivedIndex s' = index
             ∧ bufferIndexSerialSend s' = bufferIndexAcked s'
             ∧ led_orange s' = led_orange s) ∧
  (previousReceivedIndex s ≠ index →
     validIndex cfg index seqnr s
       = checkReceivedIndexAndSeqNr cfg index seqnr s
     ∧ receivedNACK cfg s =
         (valid ← checkReceivedIndexAndSeqNr cfg index seqnr s;
          if valid : bool then
            packetLength ← arrayRead (buffer s) index;
            atAcked ← arrayRead (buffer s) (wrap16 (index + packetLength));
            let acked := if decide (atAcked = END_OF_BUFFER_BYTE cfg)
                         then 0 else wrap16 (index + packetLength) in
            Some (set_previousReceivedIndex index
                    (set_bufferIndexSerialSend acked
                       (set_bufferIndexAcked acked s)))
          else Some (receivedInvalidMessage s))
     ∧ (checkReceivedIndexAndSeqNr cfg index seqnr s = Some false →
        receivedNACK cfg s = Some (receivedInvalidMessage s))).
Proof.
  intros Hindex Hseqnr.
  rewrite (receivedNACK_read cfg index seqnr s Hindex Hseqnr).
  unfold validIndex. split; intros Hprev.
  - rewrite decide_True by done. split; [done |]. simpl.
    split; [reflexivity |].
    intros s'.
    destruct (arrayRead (buffer s) index) as [len|]; simpl; [| done].
    destruct (arrayRead (buffer s) (wrap16 (index + len))) as [b|]; simpl;
      [| done].
    by intros [= <-].
  - rewrite decide_False by done. split; [done |].
    split; [reflexivity |].
    by intros ->.
Qed.

(** A Nack for index 5 with sequence number 99 while the window is 0..9,
    the serial-send index 3 and the last processed index 5: the packet at 5
    carries sequence number 1, so the shared check would reject the Nack;
    the handler accepts it and puts the acked index behind the packet, on
    9, and the serial-send index with it.  A Nack for index 10, which is
    not the last processed index and lies outside the window 5..9, is an
    invalid message. *)
Lemma nack_repeat_skips_validation_witness :
  checkReceivedIndexAndSeqNr Example.config 5 99
    (Example.state (Example.nack 5 99) 5 0 9 3) = Some false ∧
  validIndex Example.config 5 99
    (Example.state (Example.nack 5 99) 5 0 9 3) = Some true ∧
  receivedNACK Example.config (Example.state (Example.nack 5 99) 5 0 9 3)
  = Some (Example.state (Example.nack 5 99) 5 9 9 9) ∧
  validIndex Example.config 10 2
    (Example.state (Example.nack 10 2) 0 5 9 9) = Some false ∧
  receivedNACK Example.config (Example.state (Example.nack 10 2) 0 5 9 9)
  = Some (receivedInvalidMessage (Example.state (Example.nack 10 2) 0 5 9 9)).
Proof.
  split; [reflexivity |].
  destruct (nack_repeat_skips_validation Example.config
              (Example.state (Example.nack 5 99) 5 0 9 3) 5 99
              eq_refl eq_refl) as (Hsame & _).
  destruct (Hsame eq_refl) as (Hvalid & Hrun & _).
  destruct (nack_repeat_skips_validation Example.config
              (Example.state (Example.nack 10 2) 0 5 9 9) 10 2
              eq_refl eq_refl) as (_ & Hother).
  destruct Hother as (Hvalid' & _ & Hinvalid); [discriminate |].
  repeat apply conj.
  - exact Hvalid.
  - rewrite Hrun. reflexivity.
  - rewrite Hvalid'. reflexivity.
  - apply Hinvalid. reflexivity.
Defined.

(** C6, as written, fails for an Ack that does not pass validation: with the
    window at 5..9 and the serial-send index at 9, an Ack for index 10 is
    handed to [receivedInvalidMessage], which moves the serial-send index
    back to 5. *)
Lemma ack_changes_send_index_counterexample :
  receivedACK Example.config (Example.state (Example.ack 10 2) 0 5 9 9)
  = Some (receivedInvalidMessage (Example.state (Example.ack 10 2) 0 5 9 9))
  ∧ bufferIndexSerialSend (Example.state (Example.ack 10 2) 0 5 9 9) = 9
  ∧ bufferIndexSerialSend
      (receivedInvalidMessage (Example.state (Example.ack 10 2) 0 5 9 9)) = 5
  ∧ ¬ (∀ (cfg : Config) (s s' : State),
         receivedACK cfg s = Some s' →
         bufferIndexSerialSend s' = bufferIndexSerialSend s).
Proof.
  repeat apply conj; try reflexivity.
  intros Hunchanged.
  specialize (Hunchanged Example.config
                (Example.state (Example.ack 10 2) 0 5 9 9) _ eq_refl).
  discriminate Hunchanged.
Qed.

(** C6, amended.  A Nack that is processed to the end leaves
    [bufferIndexSerialSend] equal to [bufferIndexAcked], accepted or not.
    An Ack leaves [bufferIndexSerialSend] as it was when it is a duplicate
    or passes validation; an Ack that fails validation is an invalid message
    and sets [bufferIndexSerialSend] to the unchanged [bufferIndexAcked]. *)
Theorem nack_forces_send_index_ack_only_when_invalid
    (cfg : Config) (s s' : State) (index seqnr : Z) :
  (receivedNACK cfg s = Some s' →
     bufferIndexSerialSend s' = bufferIndexAcked s') ∧
  (readUint16 cfg (message s) (ACK_INDEX_OFFSET cfg) = Some index →
   readUint16 cfg (message s) (ACK_SEQNR_OFFSET cfg) = Some seqnr →
   receivedACK cfg s = Some s' →
     (previousReceivedIndex s = index
      ∨ checkReceivedIndexAndSeqNr cfg index seqnr s = Some true →
      bufferIndexSerialSend s' = bufferIndexSerialSend s) ∧
     (previousReceivedIndex s ≠ index →
      checkReceivedIndexAndSeqNr cfg index seqnr s = Some false →
      bufferIndexSerialSend s' = bufferIndexAcked s
      ∧ bufferIndexAcked s' = bufferIndexAcked s)).
Proof.
  split.
  - destruct (readUint16 cfg (message s) (NACK_INDEX_OFFSET cfg))
      as [i|] eqn:Hi; [| unfold receivedNACK; by rewrite Hi].
    destruct (readUint16 cfg (message s) (NACK_SEQNR_OFFSET cfg))
      as [n|] eqn:Hn; [| unfold receivedNACK; by rewrite Hi, Hn].
    rewrite (receivedNACK_read cfg i n s Hi Hn).
    destruct (validIndex cfg i n s) as [[|]|]; simpl; [| | discriminate].
    + destruct (arrayRead (buffer s) i) as [len|]; simpl; [| discriminate].
      destruct (arrayRead (buffer s) (wrap16 (i + len))) as [b|]; simpl;
        [| discriminate].
      case_decide; by intros [= <-].
    + by intros [= <-].
  - intros Hindex Hseqnr.
    rewrite (receivedACK_read cfg index seqnr s Hindex Hseqnr).
    intros Hrun. split.
    + intros Hkeep. revert Hrun. case_decide as Hprev.
      * by intros [= <-].
      * destruct Hkeep as [Hsame | Hcheck]; [contradiction |].
        rewrite Hcheck. simpl.
        destruct (arrayRead (buffer s) index) as [len|]; simpl;
          [| discriminate].
        by intros [= <-].
    + intros Hprev Hcheck. revert Hrun.
      rewrite decide_False by done. rewrite Hcheck. simpl.
      by intros [= <-].
Qed.

(** The Nack and the Ack for index 10 with the window at 5..9: both end in
    the serial-send index at 5; the Ack for index 5 leaves it at 9. *)
Lemma nack_forces_send_index_ack_only_when_invalid_witness :
  bufferIndexSerialSend
    (receivedInvalidMessage (Example.state (Example.nack 10 2) 0 5 9 9))
  = bufferIndexAcked
      (receivedInvalidMessage (Example.state (Example.nack 10 2) 0 5 9 9)) ∧
  bufferIndexSerialSend (Example.state (Example.ack 5 1) 5 9 9 9)
  = bufferIndexSerialSend (Example.state (Example.ack 5 1) 0 5 9 9) ∧
  bufferIndexSerialSend
    (receivedInvalidMessage (Example.state (Example.ack 10 2) 0 5 9 9))
  = bufferIndexAcked (Example.state (Example.ack 10 2) 0 5 9 9).
Proof.
  repeat apply conj.
  - destruct (nack_forces_send_index_ack_only_when_invalid Example.config
                (Example.state (Example.nack 10 2) 0 5 9 9)
                (receivedInvalidMessage
                   (Example.state (Example.nack 10 2) 0 5 9 9)) 10 2)
      as (Hnack & _).
    exact (Hnack eq_refl).
  - destruct (nack_forces_send_index_ack_only_when_invalid Example.config
                (Example.state (Example.ack 5 1) 0 5 9 9)
                (Example.state (Example.ack 5 1) 5 9 9 9) 5 1)
      as (_ & Hack).
    destruct (Hack eq_refl eq_refl eq_refl) as (Hkeep & _).
    apply Hkeep. right. reflexivity.
  - destruct (nack_forces_send_index_ack_only_when_invalid Example.config
                (Example.state (Example.ack 10 2) 0 5 9 9)
                (receivedInvalidMessage
                   (Example.state (Example.ack 10 2) 0 5 9 9)) 10 2)
      as (_ & Hack).
    destruct (Hack eq_refl eq_refl eq_refl) as (_ & Hinvalid).
    apply Hinvalid; [discriminate | reflexivity].
Defined.

(** ** Reset and Stop *)

Section ResetStop.

Variable cfg : Config.

(** What both handlers leave in the indices and the sequence number. *)
Lemma emptyBuffer_zero (s : State) :
  bufferIndexRadio (emptyBuffer s) = 0
  ∧ bufferIndexSerialSend (emptyBuffer s) = 0
  ∧ bufferIndexAcked (emptyBuffer s) = 0
  ∧ seqNr (emptyBuffer s) = 0.
Proof. done. Qed.

(** [receivedRESET] once the channel byte is read. *)
Lemma receivedRESET_read (channel : Z) (s : State) :
  arrayRead (message s) (RESET_CHANNEL_OFFSET cfg) = Some channel →
  receivedRESET cfg s =
    let s0 := emptyBuffer (set_leds true false false false
                             (call IntDisable_RFCORERTX s)) in
    if decide (channel >= 11 ∧ channel <= 26) then
      Some (call CC2538_RF_CSP_ISRXON
              (call IntEnable_RFCORERTX
                 (call CC2538_RF_CSP_ISFLUSHRX
                    (call sendReadyPacket
                       (call (radio_setChannel channel) s0)))))
    else Some s0.
Proof.
  intros Hchannel. unfold receivedRESET. simpl. by rewrite Hchannel.
Qed.

Lemma interruptEnabled_app (b : bool) (cs ds : list Call) :
  interruptEnabled b (cs ++ ds) = interruptEnabled (interruptEnabled b cs) ds.
Proof. apply fold_left_app. Qed.

(** A byte that is not the delimiter never reaches a handler: the send
    window, apart from the serial-send index, and the hardware stay as they
    are. *)
Lemma processByte_data_previousReceivedIndex (byte : Z) (s s' : State) :
  byte ≠ HDLC_FLAG cfg →
  processByte cfg byte s = Some s' →
  previousReceivedIndex s' = previousReceivedIndex s.
Proof.
  intros Hdata. unfold processByte. rewrite decide_False by done.
  destruct (receivingStatus s && _); [| by intros [= <-]].
  unfold addByteToBuffer. case_decide.
  - destruct (negb (escaping s)); by intros [= <-].
  - destruct (escaping s); simpl;
      (destruct (arrayWrite _ _ _) as [m|]; simpl; [| discriminate]);
      by intros [= <-].
Qed.

Lemma processBytes_data_previousReceivedIndex (bytes : list Z) :
  Forall (λ byte, byte ≠ HDLC_FLAG cfg) bytes →
  ∀ s s', processBytes cfg bytes s = Some s' →
          previousReceivedIndex s' = previousReceivedIndex s.
Proof.
  induction 1 as [| byte rest Hbyte _ IH]; intros s s'; simpl.
  - by intros [= <-].
  - destruct (processByte cfg byte s) as [s1|] eqn:Hstep; simpl;
      [| discriminate].
    intros Hrest. rewrite (IH _ _ Hrest).
    by apply (processByte_data_previousReceivedIndex byte).
Qed.

End ResetStop.

(** C7.  A Reset whose channel byte can be read always returns with
    [bufferIndexRadio], [bufferIndexSerialSend], [bufferIndexAcked] and
    [seqNr] at zero.  With a channel outside 11..26 the handler stops after
    the zeroing: its only call is the one disabling the radio-receive
    interrupt, so no channel is set, no Ready packet is sent and the
    interrupt stays disabled.  With a channel inside 11..26 it goes on to
    set the channel, send the Ready packet, flush the receive FIFO, enable
    the interrupt and switch the receiver on, in this order. *)
Theorem reset_channel_range (cfg : Config) (s : State) (channel : Z) :
  arrayRead (message s) (RESET_CHANNEL_OFFSET cfg) = Some channel →
  ∃ s', receivedRESET cfg s = Some s'
    ∧ bufferIndexRadio s' = 0
    ∧ bufferIndexSerialSend s' = 0
    ∧ bufferIndexAcked s' = 0
    ∧ seqNr s' = 0
    ∧ (¬ (11 <= channel <= 26) →
       s' = emptyBuffer (set_leds true false false false
                           (call IntDisable_RFCORERTX s))
       ∧ calls s' = calls s ++ [IntDisable_RFCORERTX]
       ∧ ∀ b, interruptEnabled b (calls s') = false)
    ∧ (11 <= channel <= 26 →
       calls s' = calls s ++ [IntDisable_RFCORERTX;
                              radio_setChannel channel;
                              sendReadyPacket;
                              CC2538_RF_CSP_ISFLUSHRX;
                              IntEnable_RFCORERTX;
                              CC2538_RF_CSP_ISRXON]
       ∧ ∀ b, interruptEnabled b (calls s') = true).
Proof.
  intros Hchannel.
  rewrite (receivedRESET_read cfg channel s Hchannel). cbv zeta.
  case_decide as Hrange; eexists; (split; [reflexivity |]);
    repeat apply conj; try reflexivity; intros Hcase; try lia.
  - repeat apply conj.
    + simpl. by rewrite <- !app_assoc.
    + intros b. simpl. rewrite <- !app_assoc.
      by rewrite interruptEnabled_app.
  - repeat apply conj; try reflexivity.
    intros b. simpl. by rewrite interruptEnabled_app.
Qed.

(** A Reset for channel 30 and a Reset for channel 11. *)
Lemma reset_channel_range_witness :
  (∃ s', receivedRESET Example.config (Example.state (Example.reset 30) 5 5 9 9)
         = Some s'
     ∧ (bufferIndexRadio s', bufferIndexSerialSend s',
        bufferIndexAcked s', seqNr s') = (0, 0, 0, 0)
     ∧ calls s' = [IntDisable_RFCORERTX]
     ∧ interruptEnabled true (calls s') = false) ∧
  (∃ s', receivedRESET Example.config (Example.state (Example.reset 11) 5 5 9 9)
         = Some s'
     ∧ (bufferIndexRadio s', bufferIndexSerialSend s',
        bufferIndexAcked s', seqNr s') = (0, 0, 0, 0)
     ∧ calls s' = [IntDisable_RFCORERTX; radio_setChannel 11; sendReadyPacket;
                   CC2538_RF_CSP_ISFLUSHRX; IntEnable_RFCORERTX;
                   CC2538_RF_CSP_ISRXON]
     ∧ interruptEnabled false (calls s') = true).
Proof.
  split.
  - destruct (reset_channel_range Example.config
                (Example.state (Example.reset 30) 5 5 9 9) 30 eq_refl)
      as (s' & Hrun & Hradio & Hsend & Hacked & Hseq & Hout & _).
    destruct Hout as (_ & Hcalls & Hint); [lia |].
    exists s'. rewrite Hradio, Hsend, Hacked, Hseq.
    repeat apply conj; [exact Hrun | reflexivity | exact Hcalls | apply Hint].
  - destruct (reset_channel_range Example.config
                (Example.state (Example.reset 11) 5 5 9 9) 11 eq_refl)
      as (s' & Hrun & Hradio & Hsend & Hacked & Hseq & _ & Hin).
    destruct Hin as (Hcalls & Hint); [lia |].
    exists s'. rewrite Hradio, Hsend, Hacked, Hseq.
    repeat apply conj; [exact Hrun | reflexivity | exact Hcalls | apply Hint].
Defined.

(** C10.  Reset and Stop leave the three indices and [seqNr] at zero and do
    not touch [previousReceivedIndex].  So when the next frame (an opening
    delimiter and any bytes other than the delimiter) is an Ack whose index
    is that old [previousReceivedIndex], the Ack handler returns without
    changing anything. *)
Theorem stale_index_survives_reset_and_stop
    (cfg : Config) (s s1 t : State) (body : list Z) (seqnr : Z) :
  receivedRESET cfg s = Some s1 ∨ receivedSTOP s = s1 →
  (bufferIndexRadio s1 = 0 ∧ bufferIndexSerialSend s1 = 0
   ∧ bufferIndexAcked s1 = 0 ∧ seqNr s1 = 0
   ∧ previousReceivedIndex s1 = previousReceivedIndex s) ∧
  (Forall (λ byte, byte ≠ HDLC_FLAG cfg) body →
   processBytes cfg (HDLC_FLAG cfg :: body) (finishFrame true s1) = Some t →
   readUint16 cfg (message t) (ACK_INDEX_OFFSET cfg)
     = Some (previousReceivedIndex s) →
   readUint16 cfg (message t) (ACK_SEQNR_OFFSET cfg) = Some seqnr →
   receivedACK cfg t = Some t).
Proof.
  intros Hhandler.
  assert (bufferIndexRadio s1 = 0 ∧ bufferIndexSerialSend s1 = 0
          ∧ bufferIndexAcked s1 = 0 ∧ seqNr s1 = 0
          ∧ previousReceivedIndex s1 = previousReceivedIndex s) as Hzero.
  { destruct Hhandler as [Hreset | <-]; [| done].
    destruct (arrayRead (message s) (RESET_CHANNEL_OFFSET cfg))
      as [channel|] eqn:Hchannel.
    - rewrite (receivedRESET_read cfg channel s Hchannel) in Hreset.
      cbv zeta in Hreset. by case_decide; injection Hreset as <-.
    - unfold receivedRESET in Hreset. simpl in Hreset.
      by rewrite Hchannel in Hreset. }
  split; [exact Hzero |].
  intros Hbody Hframe Hindex Hseqnr.
  apply (receivedACK_same_index cfg seqnr); [| exact Hseqnr].
  rewrite Hindex. f_equal.
  destruct Hzero as (_ & _ & _ & _ & <-).
  simpl in Hframe. unfold processByte in Hframe.
  rewrite decide_True in Hframe by done. simpl in Hframe.
  by rewrite (processBytes_data_previousReceivedIndex cfg body Hbody _ _ Hframe).
Qed.

(** The last processed index is 5 when a Reset for channel 11 arrives; the
    Ack for index 5 that follows is ignored.  The same after a Stop. *)
Lemma stale_index_survives_reset_and_stop_witness :
  (∃ s1 t,
     receivedRESET Example.config (Example.state (Example.reset 11) 5 5 9 9)
       = Some s1
     ∧ processBytes Example.config (0x7E :: Example.wire (Example.ack 5 1))
         (finishFrame true s1) = Some t
     ∧ receivedACK Example.config t = Some t) ∧
  (∃ t,
     processBytes Example.config (0x7E :: Example.wire (Example.ack 5 1))
       (finishFrame true (receivedSTOP (Example.state [4; 2] 5 5 9 9)))
       = Some t
     ∧ receivedACK Example.config t = Some t).
Proof.
  split.
  - pose (s := Example.state (Example.reset 11) 5 5 9 9).
    pose (body := Example.wire (Example.ack 5 1)).
    pose (s1 := default s (receivedRESET Example.config s)).
    pose (t := default s (processBytes Example.config (0x7E :: body)
                            (finishFrame true s1))).
    exists s1, t.
    split; [vm_compute; reflexivity |]. split; [vm_compute; reflexivity |].
    apply (stale_index_survives_reset_and_stop Example.config s s1 t body 1).
    + left. vm_compute. reflexivity.
    + vm_compute. repeat constructor; discriminate.
    + vm_compute. reflexivity.
    + vm_compute. reflexivity.
    + vm_compute. reflexivity.
  - pose (s := Example.state [4; 2] 5 5 9 9).
    pose (body := Example.wire (Example.ack 5 1)).
    pose (t := default s (processBytes Example.config (0x7E :: body)
                            (finishFrame true (receivedSTOP s)))).
    exists t.
    split; [vm_compute; reflexivity |].
    apply (stale_index_survives_reset_and_stop Example.config s
             (receivedSTOP s) t body 1).
    + right. reflexivity.
    + vm_compute. repeat constructor; discriminate.
    + vm_compute. reflexivity.
    + vm_compute. reflexivity.
    + vm_compute. reflexivity.
Defined.

(** ** The UART receive ring *)

Section Ring.

Variable cfg : Config.

(** On a slot of a ring of at most 256 slots the [uint8_t] increment does
    not truncate before the comparison, except at 255 in a ring of 256,
    where the truncation itself goes back to slot 0. *)
Lemma ringNext_slot (size index : Z) :
  size <= 256 → 0 <= index < size →
  ringNext size index = if decide (index + 1 = size) then 0 else index + 1.
Proof.
  intros Hsize Hindex. unfold ringNext, wrap8.
  destruct (decide (index + 1 = 256)) as [H256 | H256].
  - rewrite H256. change (256 mod 2 ^ 8) with 0.
    repeat case_decide; lia.
  - rewrite Z.mod_small by lia. reflexivity.
Qed.

Lemma ringNext_range (size index : Z) :
  size <= 256 → 0 <= index < size → 0 <= ringNext size index < size.
Proof.
  intros Hsize Hindex. rewrite ringNext_slot by done. case_decide; lia.
Qed.

Lemma arrayRead_lookup (a : list Z) (i : Z) :
  0 <= i → arrayRead a i = a !! Z.to_nat i.
Proof. intros Hi. unfold arrayRead. by rewrite decide_True. Qed.

Lemma pending_empty (u : Uart) :
  uartRxBufferIndexRead u = uartRxBufferIndexWrite u → pending u = [].
Proof.
  intros Heq. unfold pending. rewrite Heq, decide_True by lia.
  by rewrite Nat.sub_diag.
Qed.

(** The number of unread bytes. *)
Lemma length_pending (u : Uart) :
  ringOk u →
  Z.of_nat (length (pending u)) =
    if decide (uartRxBufferIndexRead u <= uartRxBufferIndexWrite u)
    then uartRxBufferIndexWrite u - uartRxBufferIndexRead u
    else Z.of_nat (length (uartRxBuffer u))
         - uartRxBufferIndexRead u + uartRxBufferIndexWrite u.
Proof.
  intros (Hsize & Hread & Hwrite). unfold pending. case_decide.
  - rewrite length_take, length_drop. lia.
  - rewrite length_app, length_take, length_drop. lia.
Qed.

(** The oldest unread byte is the one at the read index; the others are
    what is pending once the read index has moved on. *)
Lemma pending_cons (u : Uart) :
  ringOk u →
  uartRxBufferIndexRead u ≠ uartRxBufferIndexWrite u →
  ∃ byte,
    arrayRead (uartRxBuffer u) (uartRxBufferIndexRead u) = Some byte
    ∧ pending u =
        byte :: pending (mkUart (uartRxBuffer u) (uartRxBufferIndexWrite u)
                           (ringNext (Z.of_nat (length (uartRxBuffer u)))
                              (uartRxBufferIndexRead u))).
Proof.
  intros (Hsize & Hread & Hwrite) Hne.
  destruct u as [buf w r]. simpl in *.
  destruct (lookup_lt_is_Some_2 buf (Z.to_nat r)) as [byte Hbyte]; [lia |].
  exists byte. split; [by rewrite arrayRead_lookup by lia |].
  rewrite ringNext_slot by lia.
  unfold pending. simpl.
  rewrite (drop_S buf byte (Z.to_nat r) Hbyte).
  destruct (decide (r <= w)) as [Hle | Hgt];
    destruct (decide (r + 1 = Z.of_nat (length buf))) as [Hend | Hend];
    try lia.
  - rewrite decide_True by lia.
    replace (Z.to_nat w - Z.to_nat r)%nat
      with (S (Z.to_nat w - Z.to_nat (r + 1)))%nat by lia.
    simpl. by replace (Z.to_nat (r + 1)) with (S (Z.to_nat r)) by lia.
  - simpl. f_equal. rewrite decide_True by lia.
    rewrite drop_ge by lia. simpl.
    change (Z.to_nat 0) with 0%nat. by rewrite Nat.sub_0_r.
  - simpl. f_equal. rewrite decide_False by lia.
    by replace (Z.to_nat (r + 1)) with (S (Z.to_nat r)) by lia.
Qed.

(** [receive] with enough fuel for the unread bytes. *)
Lemma receive_pending (fuel : nat) :
  ∀ (u : Uart) (s : State),
    ringOk u →
    (length (pending u) <= fuel)%nat →
    receive cfg fuel u s =
      s' ← processBytes cfg (pending u) s;
      Some (mkUart (uartRxBuffer u) (uartRxBufferIndexWrite u)
              (uartRxBufferIndexWrite u), s').
Proof.
  induction fuel as [| fuel IH]; intros u s Hok Hfuel.
  - destruct (decide (uartRxBufferIndexRead u = uartRxBufferIndexWrite u))
      as [Heq | Hne].
    + rewrite (pending_empty u Heq). simpl. rewrite decide_False by tauto.
      destruct u; simpl in *; by subst.
    + destruct (pending_cons u Hok Hne) as (byte & _ & Hpending).
      rewrite Hpending in Hfuel. simpl in Hfuel. lia.
  - destruct (decide (uartRxBufferIndexRead u = uartRxBufferIndexWrite u))
      as [Heq | Hne].
    + rewrite (pending_empty u Heq). simpl. rewrite decide_False by tauto.
      destruct u; simpl in *; by subst.
    + destruct (pending_cons u Hok Hne) as (byte & Hbyte & Hpending).
      simpl. rewrite decide_True by done. rewrite Hbyte, Hpending. simpl.
      destruct (processByte cfg byte s) as [s1|]; simpl; [| done].
      rewrite IH.
      * reflexivity.
      * destruct Hok as (Hsize & Hread & Hwrite).
        repeat split; simpl; try lia; by apply ringNext_range.
      * rewrite Hpending in Hfuel. simpl in Hfuel. lia.
Qed.

End Ring.

Section RingWrite.

(** A byte written into a ring with a free slot left is the newest unread
    byte. *)
Lemma uartByteReceived_pending (byte : Z) (u : Uart) :
  ringOk u →
  Z.of_nat (length (pending u)) + 1 < Z.of_nat (length (uartRxBuffer u)) →
  ∃ u', uartByteReceived byte u = Some u'
    ∧ ringOk u'
    ∧ length (uartRxBuffer u') = length (uartRxBuffer u)
    ∧ uartRxBufferIndexRead u' = uartRxBufferIndexRead u
    ∧ pending u' = pending u ++ [byte].
Proof.
  intros Hok Hroom. rewrite (length_pending u Hok) in Hroom.
  destruct Hok as (Hsize & Hread & Hwrite).
  destruct u as [buf w r]. simpl in *.
  unfold uartByteReceived, arrayWrite. simpl.
  rewrite decide_True by lia. simpl. rewrite length_insert.
  eexists. split; [reflexivity |].
  assert (0 <= ringNext (Z.of_nat (length buf)) w < Z.of_nat (length buf))
    as Hnext by (by apply ringNext_range).
  split; [| split; [| split]]; simpl.
  - unfold ringOk. simpl. rewrite length_insert. lia.
  - apply length_insert.
  - reflexivity.
  - rewrite ringNext_slot by lia.
    unfold pending. simpl.
    destruct (decide (r <= w)) as [Hle | Hgt];
      destruct (decide (w + 1 = Z.of_nat (length buf))) as [Hend | Hend];
      try lia.
    + rewrite decide_False by lia. change (Z.to_nat 0) with 0%nat.
      rewrite take_0, app_nil_r.
      rewrite drop_insert_ge by lia.
      rewrite insert_take_drop by (rewrite length_drop; lia).
      rewrite (drop_ge (drop _ _)) by (rewrite length_drop; lia).
      done.
    + rewrite decide_True by lia.
      rewrite drop_insert_ge by lia.
      replace (Z.to_nat (w + 1) - Z.to_nat r)%nat
        with (S (Z.to_nat w - Z.to_nat r))%nat by lia.
      rewrite (take_S_r _ _ byte)
        by (apply list_lookup_insert_eq; rewrite length_drop; lia).
      by rewrite take_insert_ge by lia.
    + rewrite decide_False by lia.
      rewrite drop_insert_lt by lia.
      replace (Z.to_nat (w + 1)) with (S (Z.to_nat w)) by lia.
      rewrite (take_S_r _ _ byte) by (apply list_lookup_insert_eq; lia).
      rewrite take_insert_ge by lia. by rewrite app_assoc.
Qed.

Lemma uartBytesReceived_pending (bytes : list Z) :
  ∀ u : Uart,
    ringOk u →
    Z.of_nat (length (pending u)) + Z.of_nat (length bytes)
      < Z.of_nat (length (uartRxBuffer u)) →
    ∃ u', uartBytesReceived bytes u = Some u'
      ∧ ringOk u'
      ∧ length (uartRxBuffer u') = length (uartRxBuffer u)
      ∧ uartRxBufferIndexRead u' = uartRxBufferIndexRead u
      ∧ pending u' = pending u ++ bytes.
Proof.
  induction bytes as [| byte rest IH]; intros u Hok Hroom; simpl in *.
  - exists u. by rewrite app_nil_r.
  - destruct (uartByteReceived_pending byte u Hok)
      as (u1 & -> & Hok1 & Hlen1 & Hread1 & Hpending1); [lia |].
    simpl.
    destruct (IH u1 Hok1) as (u' & -> & Hok' & Hlen' & Hread' & Hpending').
    { rewrite Hpending1, length_app, Hlen1. simpl. lia. }
    exists u'. split; [done |]. split; [done |].
    split; [congruence |]. split; [congruence |].
    by rewrite Hpending', Hpending1, <- app_assoc.
Qed.

End RingWrite.

(** X1.  On a usable ring, [receive] hands the unread bytes to
    [processByte], oldest first and round the end of the array, and stops
    with the read index on the write index; the stored bytes and the write
    index are as before.  As many iterations as the ring has slots are
    enough.  The run has no result exactly when [processByte] has none for
    one of the bytes. *)
Theorem receive_drains_ring
    (cfg : Config) (fuel : nat) (u : Uart) (s : State) :
  ringOk u →
  (length (uartRxBuffer u) <= fuel)%nat →
  receive cfg fuel u s =
    s' ← processBytes cfg (pending u) s;
    Some (mkUart (uartRxBuffer u) (uartRxBufferIndexWrite u)
            (uartRxBufferIndexWrite u), s').
Proof.
  intros Hok Hfuel. apply receive_pending; [done |].
  pose proof (length_pending u Hok) as Hlen.
  destruct Hok as (Hsize & Hread & Hwrite). case_decide; lia.
Qed.

(** The three bytes of [RingExample.ring], read from slots 6, 7 and 0 while
    no frame is open: each is noise, and the serial-send index goes back to
    the acked index. *)
Lemma receive_drains_ring_witness :
  receive Example.config 8 RingExample.ring (Example.idle 0 5 9 9)
  = Some (mkUart [13; 0; 0; 0; 0; 0; 11; 12] 1 1, Example.idle 0 5 9 5).
Proof.
  rewrite (receive_drains_ring Example.config 8 RingExample.ring
             (Example.idle 0 5 9 9)).
  - reflexivity.
  - unfold ringOk. simpl. lia.
  - simpl. lia.
Defined.

(** X2.  Bytes stored by [uartByteReceived] while the ring keeps a free slot
    are read back by [receive] after the bytes that were already unread, in
    the order of their arrival. *)
Theorem ring_is_first_in_first_out
    (cfg : Config) (fuel : nat) (bytes : list Z) (u : Uart) (s : State) :
  ringOk u →
  Z.of_nat (length (pending u)) + Z.of_nat (length bytes)
    < Z.of_nat (length (uartRxBuffer u)) →
  (length (uartRxBuffer u) <= fuel)%nat →
  ∃ u', uartBytesReceived bytes u = Some u'
    ∧ uartRxBufferIndexRead u' = uartRxBufferIndexRead u
    ∧ pending u' = pending u ++ bytes
    ∧ receive cfg fuel u' s =
        s' ← processBytes cfg (pending u ++ bytes) s;
        Some (mkUart (uartRxBuffer u') (uartRxBufferIndexWrite u')
                (uartRxBufferIndexWrite u'), s').
Proof.
  intros Hok Hroom Hfuel.
  destruct (uartBytesReceived_pending bytes u Hok Hroom)
    as (u' & Hrun & Hok' & Hlen & Hread & Hpending).
  exists u'. split; [done |]. split; [done |]. split; [done |].
  rewrite <- Hpending. apply receive_pending; [done |].
  pose proof (length_pending u' Hok') as Hlen'.
  destruct Hok' as (Hsize & Hr & Hw). rewrite Hlen in *. case_decide; lia.
Qed.

(** The delimiter and the start of an Ack arrive while 11, 12, 13 are still
    unread. *)
Lemma ring_is_first_in_first_out_witness :
  ∃ u', uartBytesReceived [0x7E; 1; 6] RingExample.ring = Some u'
    ∧ uartRxBufferIndexRead u' = 6
    ∧ pending u' = [11; 12; 13; 0x7E; 1; 6]
    ∧ receive Example.config 8 u' (Example.idle 0 5 9 9) =
        s' ← processBytes Example.config [11; 12; 13; 0x7E; 1; 6]
               (Example.idle 0 5 9 9);
        Some (mkUart (uartRxBuffer u') (uartRxBufferIndexWrite u')
                (uartRxBufferIndexWrite u'), s').
Proof.
  refine (ring_is_first_in_first_out Example.config 8 [0x7E; 1; 6]
            RingExample.ring (Example.idle 0 5 9 9) _ _ _).
  - unfold ringOk. simpl. lia.
  - simpl. lia.
  - simpl. lia.
Defined.

(** X3.  The ring holds one byte less than it has slots.  When all but one
    slot hold unread bytes, the next byte moves the write index onto the
    read index: to [receive] the ring is then empty, and it processes
    neither the unread bytes nor the new one. *)
Theorem ring_overflow_loses_unread
    (cfg : Config) (fuel : nat) (byte : Z) (u : Uart) (s : State) :
  ringOk u →
  Z.of_nat (length (pending u)) + 1 = Z.of_nat (length (uartRxBuffer u)) →
  ∃ u', uartByteReceived byte u = Some u'
    ∧ uartRxBufferIndexWrite u' = uartRxBufferIndexRead u'
    ∧ uartRxBufferIndexRead u' = uartRxBufferIndexRead u
    ∧ pending u' = []
    ∧ receive cfg fuel u' s = Some (u', s).
Proof.
  intros Hok Hfull. rewrite (length_pending u Hok) in Hfull.
  destruct Hok as (Hsize & Hread & Hwrite).
  destruct u as [buf w r]. simpl in *.
  unfold uartByteReceived, arrayWrite. simpl.
  rewrite decide_True by lia. simpl. rewrite length_insert.
  assert (ringNext (Z.of_nat (length buf)) w = r) as Hnext.
  { rewrite ringNext_slot by lia. repeat case_decide; lia. }
  eexists. split; [reflexivity |]. simpl. rewrite Hnext.
  split; [done |]. split; [done |].
  split; [by apply pending_empty |].
  destruct fuel; simpl; by rewrite decide_False by tauto.
Qed.

(** [RingExample.full] has seven unread bytes in eight slots; the byte 99
    goes into slot 2 and the write index onto the read index 3. *)
Lemma ring_overflow_loses_unread_witness :
  pending RingExample.full = [21; 22; 23; 24; 25; 26; 27] ∧
  ∃ u', uartByteReceived 99 RingExample.full = Some u'
    ∧ uartRxBufferIndexWrite u' = uartRxBufferIndexRead u'
    ∧ uartRxBufferIndexRead u' = 3
    ∧ pending u' = []
    ∧ receive Example.config 8 u' (Example.idle 0 5 9 9)
      = Some (u', Example.idle 0 5 9 9).
Proof.
  split; [reflexivity |].
  refine (ring_overflow_loses_unread Example.config 8 99 RingExample.full
            (Example.idle 0 5 9 9) _ _).
  - unfold ringOk. simpl. lia.
  - reflexivity.
Defined.

(** ** Bytes inside and outside a frame *)

(** Computes setters and projections on a state given by its fields,
    innermost first, and nothing else. *)
Ltac state_fields :=
  cbv beta iota delta
    [set_receivingStatus set_escaping set_crc set_message set_messageLen
     set_previousReceivedIndex set_bufferIndexRadio set_bufferIndexSerialSend
     set_bufferIndexAcked set_seqNr set_leds call
     receivingStatus escaping crc message messageLen previousReceivedIndex
     buffer bufferIndexRadio bufferIndexSerialSend bufferIndexAcked seqNr
     led_green led_yellow led_orange led_red calls].

Section DataBytes.

Variable cfg : Config.

Lemma processBytes_app (front back : list Z) :
  ∀ s, processBytes cfg (front ++ back) s =
       s' ← processBytes cfg front s; processBytes cfg back s'.
Proof.
  induction front as [| byte front IH]; intros s; simpl; [done |].
  destruct (processByte cfg byte s) as [s1|]; simpl; [apply IH | done].
Qed.

(** What a byte other than the delimiter can change. *)
Lemma processByte_data_window (byte : Z) (s s' : State) :
  byte ≠ HDLC_FLAG cfg →
  processByte cfg byte s = Some s' →
  buffer s' = buffer s
  ∧ bufferIndexAcked s' = bufferIndexAcked s
  ∧ bufferIndexRadio s' = bufferIndexRadio s
  ∧ seqNr s' = seqNr s
  ∧ previousReceivedIndex s' = previousReceivedIndex s
  ∧ (led_green s', led_yellow s', led_orange s', led_red s')
    = (led_green s, led_yellow s, led_orange s, led_red s)
  ∧ calls s' = calls s
  ∧ (bufferIndexSerialSend s' = bufferIndexSerialSend s
     ∨ bufferIndexSerialSend s' = bufferIndexAcked s).
Proof.
  intros Hdata. unfold processByte. rewrite decide_False by done.
  destruct (receivingStatus s && _).
  - unfold addByteToBuffer. case_decide.
    + destruct (negb (escaping s)); intros [= <-]; simpl; tauto.
    + destruct (escaping s); simpl;
        (destruct (arrayWrite _ _ _) as [m|]; simpl; [| discriminate]);
        intros [= <-]; simpl; tauto.
  - intros [= <-]; simpl; tauto.
Qed.

(** A byte other than the delimiter is stored inside the message array or
    not at all. *)
Lemma processByte_data_bounds (byte : Z) (s : State) :
  byte ≠ HDLC_FLAG cfg →
  Z.of_nat (length (message s)) = SERIAL_RX_MAX_MESSAGE_LEN cfg →
  0 <= messageLen s <= SERIAL_RX_MAX_MESSAGE_LEN cfg →
  ∃ s', processByte cfg byte s = Some s'
    ∧ length (message s') = length (message s)
    ∧ 0 <= messageLen s' <= SERIAL_RX_MAX_MESSAGE_LEN cfg.
Proof.
  intros Hdata Hsize Hlen. unfold processByte. rewrite decide_False by done.
  destruct (receivingStatus s); simpl; [| eexists; split; [done |]; simpl; lia].
  case_bool_decide as Hroom; simpl;
    [| eexists; split; [done |]; simpl; lia].
  assert (0 <= wrap8 (messageLen s + 1) <= SERIAL_RX_MAX_MESSAGE_LEN cfg)
    as Hwrap.
  { unfold wrap8. pose proof (Z.mod_pos_bound (messageLen s + 1) (2 ^ 8)).
    pose proof (Z.mod_le (messageLen s + 1) (2 ^ 8)). lia. }
  unfold addByteToBuffer. case_decide.
  - destruct (negb (escaping s)); eexists; (split; [done |]); simpl; lia.
  - unfold arrayWrite.
    destruct (escaping s); simpl; rewrite decide_True by lia; simpl;
      eexists; (split; [done |]); simpl; rewrite length_insert; lia.
Qed.

(** A byte that is neither the delimiter nor the escape byte, arriving in a
    frame that is not escaping and has room, is stored as it is. *)
Lemma processByte_plain (byte : Z) (s : State) :
  byte ≠ HDLC_FLAG cfg → byte ≠ HDLC_ESCAPE cfg →
  receivingStatus s = true → escaping s = false →
  0 <= messageLen s < SERIAL_RX_MAX_MESSAGE_LEN cfg →
  Z.of_nat (length (message s)) = SERIAL_RX_MAX_MESSAGE_LEN cfg →
  processByte cfg byte s =
    Some (set_crc (crcCalculationStep cfg byte (crc s))
            (set_messageLen (wrap8 (messageLen s + 1))
               (set_message (<[Z.to_nat (messageLen s) := byte]> (message s))
                  s))).
Proof.
  intros Hflag Hescape Hrecv Hesc Hlen Hsize.
  unfold processByte. rewrite decide_False by done.
  rewrite Hrecv, bool_decide_eq_true_2 by lia. simpl.
  unfold addByteToBuffer. rewrite decide_False by done. rewrite Hesc.
  unfold arrayWrite. rewrite decide_True by lia. reflexivity.
Qed.

(** Plain bytes go to consecutive slots of the message array, and the CRC
    is folded over them in the order of arrival. *)
Lemma processBytes_plain (data : list Z) :
  ∀ s : State,
    Forall (λ byte, byte ≠ HDLC_FLAG cfg ∧ byte ≠ HDLC_ESCAPE cfg) data →
    receivingStatus s = true → escaping s = false →
    0 <= messageLen s →
    messageLen s + Z.of_nat (length data) <= SERIAL_RX_MAX_MESSAGE_LEN cfg →
    Z.of_nat (length (message s)) = SERIAL_RX_MAX_MESSAGE_LEN cfg →
    SERIAL_RX_MAX_MESSAGE_LEN cfg <= 255 →
    processBytes cfg data s =
      Some (set_crc
              (fold_left (λ c byte, crcCalculationStep cfg byte c) data (crc s))
              (set_messageLen (messageLen s + Z.of_nat (length data))
                 (set_message
                    (take (Z.to_nat (messageLen s)) (message s) ++ data
                     ++ drop (Z.to_nat (messageLen s) + length data)
                          (message s))
                    s))).
Proof.
  induction data as [| byte rest IH];
    intros s Hplain Hrecv Hesc Hlen Hroom Hsize Hmax.
  - simpl. rewrite Z.add_0_r, Nat.add_0_r, take_drop.
    by destruct s.
  - apply Forall_cons in Hplain as [[Hflag Hescape] Hrest].
    simpl in Hroom. simpl.
    rewrite processByte_plain by (done || lia).
    assert (wrap8 (messageLen s + 1) = messageLen s + 1) as ->
      by (unfold wrap8; rewrite Z.mod_small; lia).
    destruct s as [recv esc c m n prev buf radio send acked seq g y o r cs].
    simpl in *. subst recv esc.
    rewrite IH; simpl.
    2-8: done || lia || by rewrite length_insert.
    state_fields.
    f_equal. f_equal; [| lia].
    replace (Z.to_nat (n + 1)) with (S (Z.to_nat n)) by lia.
    rewrite (take_S_r _ _ byte) by (apply list_lookup_insert_eq; lia).
    rewrite take_insert_ge by lia.
    rewrite drop_insert_lt by lia.
    rewrite <- app_assoc. simpl.
    by rewrite Nat.add_succ_r.
Qed.

End DataBytes.

Section FrameBody.

Variable cfg : Config.

(** The opening delimiter and a body of plain bytes. *)
Lemma processBytes_frame_body (data : list Z) (s : State) :
  receivingStatus s = false →
  Forall (λ byte, byte ≠ HDLC_FLAG cfg ∧ byte ≠ HDLC_ESCAPE cfg) data →
  Z.of_nat (length data) <= SERIAL_RX_MAX_MESSAGE_LEN cfg →
  SERIAL_RX_MAX_MESSAGE_LEN cfg <= 255 →
  Z.of_nat (length (message s)) = SERIAL_RX_MAX_MESSAGE_LEN cfg →
  processBytes cfg (HDLC_FLAG cfg :: data) s = Some (loaded cfg data s).
Proof.
  intros Hidle Hplain Hlen Hmax Hsize. simpl.
  unfold processByte. rewrite decide_True by done. rewrite Hidle. simpl.
  rewrite processBytes_plain; try done; simpl; lia.
Qed.

End FrameBody.

(** X4.  Whatever bytes other than the delimiter arrive, and in whatever
    state of the frame, every one of them is processed and none is stored
    outside the message array: the array keeps its size and [messageLen]
    stays between 0 and [SERIAL_RX_MAX_MESSAGE_LEN]. *)
Theorem data_bytes_stay_inside_message
    (cfg : Config) (bytes : list Z) (s : State) :
  Forall (λ byte, byte ≠ HDLC_FLAG cfg) bytes →
  Z.of_nat (length (message s)) = SERIAL_RX_MAX_MESSAGE_LEN cfg →
  0 <= messageLen s <= SERIAL_RX_MAX_MESSAGE_LEN cfg →
  ∃ s', processBytes cfg bytes s = Some s'
    ∧ Z.of_nat (length (message s')) = SERIAL_RX_MAX_MESSAGE_LEN cfg
    ∧ 0 <= messageLen s' <= SERIAL_RX_MAX_MESSAGE_LEN cfg.
Proof.
  intros Hdata. revert s.
  induction Hdata as [| byte rest Hbyte _ IH]; intros s Hsize Hlen; simpl.
  - by exists s.
  - destruct (processByte_data_bounds cfg byte s Hbyte Hsize Hlen)
      as (s1 & -> & Hsize1 & Hlen1).
    simpl. apply IH; [lia | done].
Qed.

(** Twenty bytes, two of them escape bytes in a row, into a 16-byte message
    array that already holds 14. *)
Lemma data_bytes_stay_inside_message_witness :
  ∃ s', processBytes Example.config
          [1; 2; 3; 0x7D; 0x7D; 6; 7; 8; 9; 10;
           11; 12; 13; 14; 15; 16; 17; 18; 19; 20]
          (set_messageLen 14 (Example.state (Example.ack 5 1) 0 5 9 9))
        = Some s'
    ∧ Z.of_nat (length (message s')) = 16
    ∧ 0 <= messageLen s' <= 16.
Proof.
  apply (data_bytes_stay_inside_message Example.config).
  - vm_compute. repeat constructor; discriminate.
  - reflexivity.
  - simpl. lia.
Defined.

(** X5.  Bytes other than the delimiter never reach a handler: the packet
    buffer, the acked and radio indices, the sequence number, the last
    processed index, the LEDs and the call log are as before, and the
    serial-send index is either as before or has been set to the acked
    index. *)
Theorem data_bytes_leave_window
    (cfg : Config) (bytes : list Z) (s s' : State) :
  Forall (λ byte, byte ≠ HDLC_FLAG cfg) bytes →
  processBytes cfg bytes s = Some s' →
  buffer s' = buffer s
  ∧ bufferIndexAcked s' = bufferIndexAcked s
  ∧ bufferIndexRadio s' = bufferIndexRadio s
  ∧ seqNr s' = seqNr s
  ∧ previousReceivedIndex s' = previousReceivedIndex s
  ∧ (led_green s', led_yellow s', led_orange s', led_red s')
    = (led_green s, led_yellow s, led_orange s, led_red s)
  ∧ calls s' = calls s
  ∧ (bufferIndexSerialSend s' = bufferIndexSerialSend s
     ∨ bufferIndexSerialSend s' = bufferIndexAcked s).
Proof.
  intros Hdata. revert s.
  induction Hdata as [| byte rest Hbyte _ IH]; intros s; simpl.
  - intros [= <-]. tauto.
  - destruct (processByte cfg byte s) as [s1|] eqn:Hstep; simpl;
      [| discriminate].
    intros Hrest.
    destruct (processByte_data_window cfg byte s s1 Hbyte Hstep)
      as (Hbuf & Hacked & Hradio & Hseq & Hprev & Hleds & Hcalls & Hsend).
    destruct (IH s1 Hrest)
      as (Hbuf' & Hacked' & Hradio' & Hseq' & Hprev' & Hleds' & Hcalls'
          & Hsend').
    repeat apply conj; try congruence.
    destruct Hsend' as [-> | ->]; [exact Hsend | right; exact Hacked].
Qed.

(** Two bytes of noise between frames: only the serial-send index has
    moved, from 9 to the acked index 5. *)
Lemma data_bytes_leave_window_witness :
  buffer (Example.idle 0 5 9 5) = buffer (Example.idle 0 5 9 9)
  ∧ bufferIndexAcked (Example.idle 0 5 9 5)
    = bufferIndexAcked (Example.idle 0 5 9 9)
  ∧ bufferIndexRadio (Example.idle 0 5 9 5)
    = bufferIndexRadio (Example.idle 0 5 9 9)
  ∧ seqNr (Example.idle 0 5 9 5) = seqNr (Example.idle 0 5 9 9)
  ∧ previousReceivedIndex (Example.idle 0 5 9 5)
    = previousReceivedIndex (Example.idle 0 5 9 9)
  ∧ (led_green (Example.idle 0 5 9 5), led_yellow (Example.idle 0 5 9 5),
     led_orange (Example.idle 0 5 9 5), led_red (Example.idle 0 5 9 5))
    = (led_green (Example.idle 0 5 9 9), led_yellow (Example.idle 0 5 9 9),
       led_orange (Example.idle 0 5 9 9), led_red (Example.idle 0 5 9 9))
  ∧ calls (Example.idle 0 5 9 5) = calls (Example.idle 0 5 9 9)
  ∧ (bufferIndexSerialSend (Example.idle 0 5 9 5)
     = bufferIndexSerialSend (Example.idle 0 5 9 9)
     ∨ bufferIndexSerialSend (Example.idle 0 5 9 5)
       = bufferIndexAcked (Example.idle 0 5 9 9)).
Proof.
  apply (data_bytes_leave_window Example.config [42; 43]
           (Example.idle 0 5 9 9) (Example.idle 0 5 9 5)).
  - vm_compute. repeat constructor; discriminate.
  - reflexivity.
Defined.

(** X6.  Between frames, the opening delimiter followed by bytes that are
    neither delimiter nor escape byte, no more of them than the message
    array holds, leaves exactly these bytes at the start of the message
    array, their number in [messageLen] and, in [crc], [crcCalculationStep]
    folded over them from [CRC_INIT]; the frame is open and not escaping,
    and the rest of the array is as before. *)
Theorem plain_bytes_accumulate (cfg : Config) (data : list Z) (s : State) :
  receivingStatus s = false →
  Forall (λ byte, byte ≠ HDLC_FLAG cfg ∧ byte ≠ HDLC_ESCAPE cfg) data →
  Z.of_nat (length data) <= SERIAL_RX_MAX_MESSAGE_LEN cfg →
  SERIAL_RX_MAX_MESSAGE_LEN cfg <= 255 →
  Z.of_nat (length (message s)) = SERIAL_RX_MAX_MESSAGE_LEN cfg →
  ∃ s', processBytes cfg (HDLC_FLAG cfg :: data) s = Some s'
    ∧ s' = loaded cfg data s
    ∧ take (length data) (message s') = data
    ∧ drop (length data) (message s') = drop (length data) (message s)
    ∧ messageLen s' = Z.of_nat (length data)
    ∧ crc s' = fold_left (λ c byte, crcCalculationStep cfg byte c) data
                 (CRC_INIT cfg)
    ∧ receivingStatus s' = true
    ∧ escaping s' = false.
Proof.
  intros Hidle Hplain Hlen Hmax Hsize.
  exists (loaded cfg data s).
  split; [by apply processBytes_frame_body |].
  split; [done |]. unfold loaded. simpl.
  split; [by rewrite take_app_length |].
  split; [by rewrite drop_app_length |].
  done.
Qed.

(** The body of the Ack for the packet at 5, with its CRC bytes 9 and 65,
    received into an array of zeros. *)
Lemma plain_bytes_accumulate_witness :
  ∃ s', processBytes Example.config [0x7E; 1; 6; 5; 0; 1; 0; 9; 65]
          (Example.idle 0 5 9 9) = Some s'
    ∧ s' = loaded Example.config [1; 6; 5; 0; 1; 0; 9; 65]
             (Example.idle 0 5 9 9)
    ∧ take 8 (message s') = [1; 6; 5; 0; 1; 0; 9; 65]
    ∧ drop 8 (message s') = [0; 0; 0; 0; 0; 0; 0; 0]
    ∧ messageLen s' = 8
    ∧ crc s' = 0
    ∧ receivingStatus s' = true
    ∧ escaping s' = false.
Proof.
  apply (plain_bytes_accumulate Example.config [1; 6; 5; 0; 1; 0; 9; 65]
           (Example.idle 0 5 9 9)).
  - reflexivity.
  - vm_compute. repeat constructor; discriminate.
  - vm_compute. discriminate.
  - vm_compute. discriminate.
  - reflexivity.
Defined.

(** X7.  A whole frame of plain bytes, from opening to closing delimiter,
    arriving between frames: [len] being the second byte of the message
    array once the body is stored, the frame goes to the decoder exactly
    when it has at least four bytes, its CRC folds to zero and it has
    [len + 2] bytes; otherwise the only effect besides the stored frame is
    the serial-send index set to the acked index.  Either way the machine
    is between frames again. *)
Theorem plain_frame_end_to_end
    (cfg : Config) (data : list Z) (len : Z) (s : State) :
  receivingStatus s = false →
  data ≠ [] →
  Forall (λ byte, byte ≠ HDLC_FLAG cfg ∧ byte ≠ HDLC_ESCAPE cfg) data →
  Z.of_nat (length data) <= SERIAL_RX_MAX_MESSAGE_LEN cfg →
  SERIAL_RX_MAX_MESSAGE_LEN cfg <= 255 →
  Z.of_nat (length (message s)) = SERIAL_RX_MAX_MESSAGE_LEN cfg →
  arrayRead (message (loaded cfg data s)) 1 = Some len →
  processBytes cfg (HDLC_FLAG cfg :: data ++ [HDLC_FLAG cfg]) s =
    '(validMessage, s') ←
       (if decide (Z.of_nat (length data) >= 4
                   ∧ fold_left (λ c byte, crcCalculationStep cfg byte c) data
                       (CRC_INIT cfg) = 0
                   ∧ Z.of_nat (length data) = len + 2)
        then decodeReceivedMessage cfg (loaded cfg data s)
        else Some (false, loaded cfg data s));
    Some (finishFrame validMessage s').
Proof.
  intros Hidle Hdata Hplain Hlen Hmax Hsize Hread.
  rewrite app_comm_cons, processBytes_app.
  rewrite processBytes_frame_body by done. simpl.
  rewrite processByte_flag_receiving by done.
  rewrite (receivedEndByte_checks cfg len).
  - assert (frameAccepted len (loaded cfg data s)
            ↔ Z.of_nat (length data) >= 4
              ∧ fold_left (λ c byte, crcCalculationStep cfg byte c) data
                  (CRC_INIT cfg) = 0
              ∧ Z.of_nat (length data) = len + 2) as Hiff
      by (unfold frameAccepted; simpl; tauto).
    do 2 case_decide; try (exfalso; tauto); [| reflexivity].
    by destruct (decodeReceivedMessage cfg (loaded cfg data s)) as [[v t]|].
  - simpl. destruct data; [done | simpl; lia].
  - exact Hread.
Qed.

(** The Ack for the packet at 5 with its CRC, then the same frame with the
    last CRC byte changed. *)
Lemma plain_frame_end_to_end_witness :
  processBytes Example.config [0x7E; 1; 6; 5; 0; 1; 0; 9; 65; 0x7E]
    (Example.idle 0 5 9 9)
  = Some (set_receivingStatus false (Example.state (Example.ack 5 1) 5 9 9 9))
  ∧ processBytes Example.config [0x7E; 1; 6; 5; 0; 1; 0; 9; 66; 0x7E]
      (Example.idle 0 5 9 9)
    = Some (finishFrame false
              (loaded Example.config [1; 6; 5; 0; 1; 0; 9; 66]
                 (Example.idle 0 5 9 9))).
Proof.
  split.
  - etransitivity.
    + apply (plain_frame_end_to_end Example.config
               [1; 6; 5; 0; 1; 0; 9; 65] 6 (Example.idle 0 5 9 9)).
      * reflexivity.
      * discriminate.
      * vm_compute. repeat constructor; discriminate.
      * vm_compute. discriminate.
      * vm_compute. discriminate.
      * reflexivity.
      * reflexivity.
    + reflexivity.
  - etransitivity.
    + apply (plain_frame_end_to_end Example.config
               [1; 6; 5; 0; 1; 0; 9; 66] 6 (Example.idle 0 5 9 9)).
      * reflexivity.
      * discriminate.
      * vm_compute. repeat constructor; discriminate.
      * vm_compute. discriminate.
      * vm_compute. discriminate.
      * reflexivity.
      * reflexivity.
    + reflexivity.
Defined.

(** X8.  Unescaping undoes the mask: in an open frame with room, the escape
    byte followed by [byte ^ HDLC_ESCAPE_MASK] stores [byte] itself in the
    next slot of the message array, counts it once and folds it into the
    CRC; the escape byte leaves no other trace.  This needs the masked byte
    and the escape byte to differ from the delimiter, and the masked byte
    to differ from the escape byte. *)
Theorem escaped_byte_is_recovered (cfg : Config) (byte : Z) (s : State) :
  HDLC_ESCAPE cfg ≠ HDLC_FLAG cfg →
  Z.lxor byte (HDLC_ESCAPE_MASK cfg) ≠ HDLC_FLAG cfg →
  Z.lxor byte (HDLC_ESCAPE_MASK cfg) ≠ HDLC_ESCAPE cfg →
  receivingStatus s = true → escaping s = false →
  0 <= messageLen s < SERIAL_RX_MAX_MESSAGE_LEN cfg →
  SERIAL_RX_MAX_MESSAGE_LEN cfg <= 255 →
  Z.of_nat (length (message s)) = SERIAL_RX_MAX_MESSAGE_LEN cfg →
  processBytes cfg
    [HDLC_ESCAPE cfg; Z.lxor byte (HDLC_ESCAPE_MASK cfg)] s =
  Some (set_crc (crcCalculationStep cfg byte (crc s))
          (set_messageLen (messageLen s + 1)
             (set_message (<[Z.to_nat (messageLen s) := byte]> (message s))
                s))).
Proof.
  intros Hesc_flag Hflag Hescape Hrecv Hesc Hlen Hmax Hsize.
  assert (Z.lxor (Z.lxor byte (HDLC_ESCAPE_MASK cfg)) (HDLC_ESCAPE_MASK cfg)
          = byte) as Hundo
    by (by rewrite Z.lxor_assoc, Z.lxor_nilpotent, Z.lxor_0_r).
  assert (wrap8 (messageLen s + 1) = messageLen s + 1) as Hwrap
    by (unfold wrap8; rewrite Z.mod_small; lia).
  destruct s as [recv esc c m n prev buf radio send acked seq g y o r cs].
  simpl in *. subst recv esc.
  unfold processByte, addByteToBuffer, arrayWrite. simpl.
  rewrite (decide_False (P := HDLC_ESCAPE cfg = HDLC_FLAG cfg)) by done.
  rewrite bool_decide_eq_true_2 by lia. simpl.
  rewrite (decide_True (P := HDLC_ESCAPE cfg = HDLC_ESCAPE cfg)) by done.
  simpl.
  rewrite (decide_False (P := Z.lxor byte _ = HDLC_FLAG cfg)) by done.
  rewrite bool_decide_eq_true_2 by lia. simpl.
  rewrite (decide_False (P := Z.lxor byte _ = HDLC_ESCAPE cfg)) by done.
  rewrite decide_True by lia. simpl.
  by rewrite Hundo, Hwrap.
Qed.

(** The delimiter 0x7E itself as a payload byte: it travels as 0x7D 0x5E
    and is stored as 0x7E. *)
Lemma escaped_byte_is_recovered_witness :
  processBytes Example.config [0x7D; 0x5E]
    (receivedStartByte Example.config (Example.idle 0 5 9 9))
  = Some (set_crc (Example.crc16_step 0x7E 0xFFFF)
            (set_messageLen 1
               (set_message [0x7E; 0; 0; 0; 0; 0; 0; 0; 0; 0; 0; 0; 0; 0; 0; 0]
                  (receivedStartByte Example.config (Example.idle 0 5 9 9))))).
Proof.
  apply (escaped_byte_is_recovered Example.config 0x7E
           (receivedStartByte Example.config (Example.idle 0 5 9 9)));
    try reflexivity; try discriminate.
  simpl. lia.
Defined.

(** X9.  The three framing errors: a byte other than the delimiter outside
    a frame, a byte beyond the capacity of the message array, and an escape
    byte right after an escape byte.  Each leaves the machine outside a
    frame with the serial-send index on the acked index and the stored
    message untouched; the delimiter that follows, meant to close the
    frame, opens a new one. *)
Theorem framing_error_aborts (cfg : Config) (byte : Z) (s : State) :
  byte ≠ HDLC_FLAG cfg →
  receivingStatus s = false
  ∨ messageLen s >= SERIAL_RX_MAX_MESSAGE_LEN cfg
  ∨ (byte = HDLC_ESCAPE cfg ∧ escaping s = true) →
  ∃ s', processByte cfg byte s = Some s'
    ∧ receivingStatus s' = false
    ∧ bufferIndexSerialSend s' = bufferIndexAcked s
    ∧ bufferIndexAcked s' = bufferIndexAcked s
    ∧ message s' = message s
    ∧ processByte cfg (HDLC_FLAG cfg) s' = Some (receivedStartByte cfg s').
Proof.
  intros Hdata Herror.
  assert (∀ t, receivingStatus t = false →
               processByte cfg (HDLC_FLAG cfg) t
               = Some (receivedStartByte cfg t)) as Hnext.
  { intros t Ht. unfold processByte. rewrite decide_True by done.
    by rewrite Ht. }
  unfold processByte. rewrite decide_False by done.
  destruct (receivingStatus s) eqn:Hrecv; simpl;
    [| eexists; split; [done |]; repeat split; by apply Hnext].
  case_bool_decide as Hroom; simpl;
    [| eexists; split; [done |]; repeat split; by apply Hnext].
  destruct Herror as [Hidle | [Hfull | [-> Hesc]]]; [done | lia |].
  unfold addByteToBuffer. rewrite decide_True by done. rewrite Hesc. simpl.
  eexists. split; [done |]. repeat split. by apply Hnext.
Qed.

(** A seventeenth byte for the 16-byte message array. *)
Lemma framing_error_aborts_witness :
  ∃ s', processByte Example.config 42
          (set_messageLen 16 (Example.state (Example.ack 5 1) 0 5 9 9))
        = Some s'
    ∧ receivingStatus s' = false
    ∧ bufferIndexSerialSend s' = 5
    ∧ bufferIndexAcked s' = 5
    ∧ message s' = Example.frame (Example.ack 5 1)
    ∧ processByte Example.config 0x7E s'
      = Some (receivedStartByte Example.config s').
Proof.
  apply (framing_error_aborts Example.config 42
           (set_messageLen 16 (Example.state (Example.ack 5 1) 0 5 9 9))).
  - discriminate.
  - right. left. simpl. lia.
Defined.

(** X10.  Two delimiters in a row resynchronise the machine from any state:
    whenever both are processed, a frame is open, not escaping, empty and
    with the CRC at [CRC_INIT].  Between frames, and in an open frame that
    is still empty, both are processed and the serial-send index ends on
    the acked index. *)
Theorem two_delimiters_resynchronise (cfg : Config) (s : State) :
  (∀ s', processBytes cfg [HDLC_FLAG cfg; HDLC_FLAG cfg] s = Some s' →
         receivingStatus s' = true ∧ escaping s' = false
         ∧ messageLen s' = 0 ∧ crc s' = CRC_INIT cfg) ∧
  (receivingStatus s = false ∨ messageLen s = 0 →
   processBytes cfg [HDLC_FLAG cfg; HDLC_FLAG cfg] s
   = Some (set_bufferIndexSerialSend (bufferIndexAcked s)
             (receivedStartByte cfg s))).
Proof.
  assert (∀ t, processByte cfg (HDLC_FLAG cfg) t =
               if receivingStatus t then receivedEndByte cfg t
               else Some (receivedStartByte cfg t)) as Hflag
    by (intros t; unfold processByte; by rewrite decide_True).
  assert (∀ t, messageLen t = 0 →
               receivedEndByte cfg t
               = Some (set_bufferIndexSerialSend (bufferIndexAcked t)
                         (receivedStartByte cfg t))) as Hempty
    by (intros t Ht; unfold receivedEndByte; by rewrite decide_True).
  assert (∀ t, processBytes cfg [HDLC_FLAG cfg; HDLC_FLAG cfg] t =
               t1 ← processByte cfg (HDLC_FLAG cfg) t;
               processByte cfg (HDLC_FLAG cfg) t1) as Htwo.
  { intros t. simpl. destruct (processByte cfg (HDLC_FLAG cfg) t) as [t1|];
      simpl; [| done].
    by destruct (processByte cfg (HDLC_FLAG cfg) t1). }
  rewrite Htwo, Hflag. split.
  - intros s'. destruct (receivingStatus s) eqn:Hrecv.
    + unfold receivedEndByte. case_decide as Hlen.
      * unfold mbind, option_bind. rewrite Hflag.
        change (receivingStatus (set_bufferIndexSerialSend _ _)) with true.
        cbv iota. rewrite Hempty by done. by intros [= <-].
      * destruct (if negb (escaping s) && _ then _ else _) as [[v t]|];
          simpl; [| discriminate].
        rewrite Hflag. simpl. by intros [= <-].
    + unfold mbind, option_bind. rewrite Hflag.
      change (receivingStatus (receivedStartByte cfg s)) with true.
      cbv iota. rewrite Hempty by done. by intros [= <-].
  - intros Hstart. destruct (receivingStatus s) eqn:Hrecv.
    + destruct Hstart as [Hidle | Hlen]; [done |].
      rewrite Hempty by done. unfold mbind, option_bind. rewrite Hflag.
      change (receivingStatus (set_bufferIndexSerialSend _ _)) with true.
      cbv iota. by rewrite Hempty.
    + unfold mbind, option_bind. rewrite Hflag.
      change (receivingStatus (receivedStartByte cfg s)) with true.
      cbv iota. by rewrite Hempty.
Qed.

(** In the middle of the Ack for the packet at 5: the first delimiter
    closes and decodes the frame, the second opens the next one. *)
Lemma two_delimiters_resynchronise_witness :
  receivingStatus
    (receivedStartByte Example.config
       (Example.state (Example.ack 5 1) 5 9 9 9)) = true
  ∧ escaping
      (receivedStartByte Example.config
         (Example.state (Example.ack 5 1) 5 9 9 9)) = false
  ∧ messageLen
      (receivedStartByte Example.config
         (Example.state (Example.ack 5 1) 5 9 9 9)) = 0
  ∧ crc
      (receivedStartByte Example.config
         (Example.state (Example.ack 5 1) 5 9 9 9)) = 0xFFFF.
Proof.
  apply (two_delimiters_resynchronise Example.config
           (Example.state (Example.ack 5 1) 0 5 9 9)).
  reflexivity.
Defined.

(** ** Decoder and handlers *)

Section Handlers.

Variable cfg : Config.

Lemma sameBuffers_refl (s : State) : sameBuffers s s.
Proof. unfold sameBuffers. tauto. Qed.

Lemma sameBuffers_trans (s t u : State) :
  sameBuffers s t → sameBuffers t u → sameBuffers s u.
Proof.
  unfold sameBuffers.
  intros (Hb & Hm & Hr & Hq) (Hb' & Hm' & Hr' & Hq').
  repeat split; try congruence.
  - destruct Hr' as [-> | ->]; tauto.
  - destruct Hq' as [-> | ->]; tauto.
Qed.

Lemma receivedACK_sameBuffers (s s' : State) :
  receivedACK cfg s = Some s' → sameBuffers s s'.
Proof.
  unfold receivedACK.
  destruct (readUint16 cfg (message s) (ACK_INDEX_OFFSET cfg)) as [i|];
    simpl; [| discriminate].
  destruct (readUint16 cfg (message s) (ACK_SEQNR_OFFSET cfg)) as [n|];
    simpl; [| discriminate].
  case_decide; [intros [= <-]; apply sameBuffers_refl |].
  destruct (checkReceivedIndexAndSeqNr cfg i n s) as [[|]|]; simpl;
    [| | discriminate].
  - destruct (arrayRead (buffer s) i) as [len|]; simpl; [| discriminate].
    intros [= <-]. unfold sameBuffers. simpl. tauto.
  - intros [= <-]. unfold sameBuffers. simpl. tauto.
Qed.

Lemma receivedNACK_sameBuffers (s s' : State) :
  receivedNACK cfg s = Some s' → sameBuffers s s'.
Proof.
  destruct (readUint16 cfg (message s) (NACK_INDEX_OFFSET cfg))
    as [i|] eqn:Hi; [| unfold receivedNACK; by rewrite Hi].
  destruct (readUint16 cfg (message s) (NACK_SEQNR_OFFSET cfg))
    as [n|] eqn:Hn; [| unfold receivedNACK; by rewrite Hi, Hn].
  rewrite (receivedNACK_read cfg i n s Hi Hn).
  destruct (validIndex cfg i n s) as [[|]|]; simpl; [| | discriminate].
  - destruct (arrayRead (buffer s) i) as [len|]; simpl; [| discriminate].
    destruct (arrayRead (buffer s) (wrap16 (i + len))) as [b|]; simpl;
      [| discriminate].
    intros [= <-]. unfold sameBuffers. simpl. tauto.
  - intros [= <-]. unfold sameBuffers. simpl. tauto.
Qed.

Lemma receivedRESET_sameBuffers (s s' : State) :
  receivedRESET cfg s = Some s' → sameBuffers s s'.
Proof.
  unfold receivedRESET. simpl.
  destruct (arrayRead (message s) (RESET_CHANNEL_OFFSET cfg)) as [ch|];
    simpl; [| discriminate].
  case_decide; intros [= <-]; unfold sameBuffers; simpl; tauto.
Qed.

Lemma decodeReceivedMessage_sameBuffers (s s' : State) (v : bool) :
  decodeReceivedMessage cfg s = Some (v, s') → sameBuffers s s'.
Proof.
  unfold decodeReceivedMessage.
  destruct (arrayRead (message s) 0) as [type|]; simpl; [| discriminate].
  destruct (arrayRead (message s) 1) as [len|]; simpl; [| discriminate].
  repeat case_decide.
  - destruct (receivedACK cfg s) as [t|] eqn:Hrun; simpl; [| discriminate].
    intros [= _ <-]. by apply receivedACK_sameBuffers.
  - destruct (receivedNACK cfg s) as [t|] eqn:Hrun; simpl; [| discriminate].
    intros [= _ <-]. by apply receivedNACK_sameBuffers.
  - destruct (receivedRESET cfg s) as [t|] eqn:Hrun; simpl; [| discriminate].
    intros [= _ <-]. by apply receivedRESET_sameBuffers.
  - intros [= _ <-]. unfold sameBuffers. simpl. tauto.
  - intros [= _ <-]. apply sameBuffers_refl.
Qed.

Lemma processByte_sameBuffers (byte : Z) (s s' : State) :
  processByte cfg byte s = Some s' → sameBuffers s s'.
Proof.
  unfold processByte. case_decide.
  - destruct (receivingStatus s);
      [| intros [= <-]; unfold sameBuffers; simpl; tauto].
    unfold receivedEndByte.
    case_decide; [intros [= <-]; unfold sameBuffers; simpl; tauto |].
    destruct (negb (escaping s) && _); simpl;
      [| intros [= <-]; unfold sameBuffers; simpl; tauto].
    case_decide; simpl; [| intros [= <-]; unfold sameBuffers; simpl; tauto].
    destruct (arrayRead (message s) 1) as [len|]; simpl; [| discriminate].
    case_decide; simpl; [| intros [= <-]; unfold sameBuffers; simpl; tauto].
    destruct (decodeReceivedMessage cfg s) as [[v t]|] eqn:Hdecode; simpl;
      [| discriminate].
    intros [= <-].
    apply (sameBuffers_trans s t);
      [by eapply decodeReceivedMessage_sameBuffers |].
    destruct v; unfold sameBuffers; simpl; tauto.
  - destruct (receivingStatus s && _);
      [| intros [= <-]; unfold sameBuffers; simpl; tauto].
    unfold addByteToBuffer. case_decide.
    + destruct (negb (escaping s)); intros [= <-];
        unfold sameBuffers; simpl; tauto.
    + unfold arrayWrite.
      destruct (escaping s); simpl; case_decide; simpl; try discriminate;
        intros [= <-]; unfold sameBuffers; simpl;
        rewrite length_insert; tauto.
Qed.

End Handlers.

(** X11.  A frame that passes the length and CRC checks but whose type and
    length byte match none of Ack, Nack, Reset and Stop is dropped without
    a fault signal: the only effects are the serial-send index set to the
    acked index and the frame closed; the LEDs, the call log, the other
    indices and the last processed index are as before. *)
Theorem unknown_frame_dropped_quietly
    (cfg : Config) (type len : Z) (s : State) :
  receivingStatus s = true →
  frameAccepted len s →
  arrayRead (message s) 0 = Some type →
  arrayRead (message s) 1 = Some len →
  ¬ (type = SerialDataType_Ack cfg ∧ len = ACK_MESSAGE_LENGTH cfg) →
  ¬ (type = SerialDataType_Nack cfg ∧ len = NACK_MESSAGE_LENGTH cfg) →
  ¬ (type = SerialDataType_Reset cfg ∧ len = RESET_MESSAGE_LENGTH cfg) →
  ¬ (type = SerialDataType_Stop cfg ∧ len = STOP_MESSAGE_LENGTH cfg) →
  processByte cfg (HDLC_FLAG cfg) s =
    Some (set_receivingStatus false
            (set_bufferIndexSerialSend (bufferIndexAcked s) s)).
Proof.
  intros Hrecv Haccepted Htype Hlen Hack Hnack Hreset Hstop.
  rewrite processByte_flag_receiving by done.
  rewrite (receivedEndByte_checks cfg len s); [| | done].
  - rewrite decide_True by done.
    unfold decodeReceivedMessage. rewrite Htype, Hlen. simpl.
    by rewrite !decide_False by done.
  - destruct Haccepted as (_ & Hfour & _). lia.
Qed.

(** A well-formed frame of type 9. *)
Lemma unknown_frame_dropped_quietly_witness :
  processByte Example.config 0x7E (Example.state [9; 6; 5; 0; 1; 0] 0 5 9 9)
  = Some (set_receivingStatus false
            (Example.state [9; 6; 5; 0; 1; 0] 0 5 9 5)).
Proof.
  apply (unknown_frame_dropped_quietly Example.config 9 6
           (Example.state [9; 6; 5; 0; 1; 0] 0 5 9 9));
    try reflexivity; try (intros [Htype _]; discriminate Htype).
  repeat apply conj; try reflexivity; discriminate.
Defined.

(** X12.  An Ack for a non-negative index other than the last processed one
    that passes the check always finds its packet length inside the buffer.
    It moves [bufferIndexAcked] to the index plus that length (as a
    [uint16_t]) and records the index, and that is all: unlike a Nack it
    does not go back to 0 at the end-of-buffer byte, and it leaves the
    serial-send index and the LEDs alone. *)
Theorem accepted_ack_advances
    (cfg : Config) (index seqnr : Z) (s : State) :
  readUint16 cfg (message s) (ACK_INDEX_OFFSET cfg) = Some index →
  readUint16 cfg (message s) (ACK_SEQNR_OFFSET cfg) = Some seqnr →
  previousReceivedIndex s ≠ index →
  0 <= index →
  checkReceivedIndexAndSeqNr cfg index seqnr s = Some true →
  ∃ packetLength,
    arrayRead (buffer s) index = Some packetLength
    ∧ receivedACK cfg s =
        Some (set_previousReceivedIndex index
                (set_bufferIndexAcked (wrap16 (index + packetLength)) s)).
Proof.
  intros Hindex Hseqnr Hprev Hpos Hcheck.
  assert (index < Z.of_nat (length (buffer s))) as Hinside.
  { revert Hcheck. rewrite checkReceivedIndexAndSeqNr_spec.
    case_decide; [discriminate | lia]. }
  destruct (lookup_lt_is_Some_2 (buffer s) (Z.to_nat index))
    as [packetLength Hlen]; [lia |].
  exists packetLength. unfold arrayRead. rewrite decide_True by done.
  split; [done |].
  rewrite (receivedACK_read cfg index seqnr s Hindex Hseqnr).
  rewrite decide_False by done. rewrite Hcheck. simpl.
  unfold arrayRead. rewrite decide_True by done. by rewrite Hlen.
Qed.

(** The Ack for the last packet, at 9 with length 6: the acked index stops
    at 15, on the end-of-buffer byte. *)
Lemma accepted_ack_advances_witness :
  ∃ packetLength,
    arrayRead Example.packets 9 = Some packetLength
    ∧ receivedACK Example.config (Example.state (Example.ack 9 2) 5 9 9 9) =
        Some (set_previousReceivedIndex 9
                (set_bufferIndexAcked (wrap16 (9 + packetLength))
                   (Example.state (Example.ack 9 2) 5 9 9 9))).
Proof.
  apply (accepted_ack_advances Example.config 9 2
           (Example.state (Example.ack 9 2) 5 9 9 9));
    try reflexivity; discriminate.
Defined.

(** X13.  The repeat path of the Nack handler has no bounds check: a Nack
    whose index equals the last processed index is accepted as it is, and
    when that index is at or past the size of the buffer the handler reads
    [buffer[receivedIndex]] outside the array, so the run has no defined
    result. *)
Theorem repeated_nack_reads_unchecked
    (cfg : Config) (index seqnr : Z) (s : State) :
  readUint16 cfg (message s) (NACK_INDEX_OFFSET cfg) = Some index →
  readUint16 cfg (message s) (NACK_SEQNR_OFFSET cfg) = Some seqnr →
  previousReceivedIndex s = index →
  index >= Z.of_nat (length (buffer s)) →
  validIndex cfg index seqnr s = Some true
  ∧ arrayRead (buffer s) index = None
  ∧ receivedNACK cfg s = None.
Proof.
  intros Hindex Hseqnr Hprev Houtside.
  assert (validIndex cfg index seqnr s = Some true) as Hvalid
    by (unfold validIndex; by rewrite decide_True).
  assert (arrayRead (buffer s) index = None) as Hread.
  { unfold arrayRead. case_decide; [| done].
    apply lookup_ge_None_2. lia. }
  repeat split; [done | done |].
  rewrite (receivedNACK_read cfg index seqnr s Hindex Hseqnr).
  rewrite Hvalid. simpl. by rewrite Hread.
Qed.

(** The last processed index still at 0xFFFF, and a Nack for index 0xFFFF
    into the 20-byte buffer. *)
Lemma repeated_nack_reads_unchecked_witness :
  validIndex Example.config 0xFFFF 0
    (Example.state [2; 6; 255; 255; 0; 0] 0xFFFF 0 9 0) = Some true
  ∧ arrayRead (buffer (Example.state [2; 6; 255; 255; 0; 0] 0xFFFF 0 9 0))
      0xFFFF = None
  ∧ receivedNACK Example.config
      (Example.state [2; 6; 255; 255; 0; 0] 0xFFFF 0 9 0) = None.
Proof.
  apply (repeated_nack_reads_unchecked Example.config 0xFFFF 0
           (Example.state [2; 6; 255; 255; 0; 0] 0xFFFF 0 9 0));
    try reflexivity; discriminate.
Defined.

(** X14.  A frame that passes the length and CRC checks and carries the
    Stop type and length, the Stop type differing from the three types
    tested before it, halts the device: the radio-receive interrupt is
    disabled and the receive FIFO flushed, all four LEDs are off, the three
    indices and the sequence number are zero, and the serial-send index is
    not touched again.  The last processed index survives. *)
Theorem stop_frame_halts (cfg : Config) (s : State) :
  receivingStatus s = true →
  frameAccepted (STOP_MESSAGE_LENGTH cfg) s →
  arrayRead (message s) 0 = Some (SerialDataType_Stop cfg) →
  arrayRead (message s) 1 = Some (STOP_MESSAGE_LENGTH cfg) →
  SerialDataType_Stop cfg ≠ SerialDataType_Ack cfg →
  SerialDataType_Stop cfg ≠ SerialDataType_Nack cfg →
  SerialDataType_Stop cfg ≠ SerialDataType_Reset cfg →
  ∃ s', processByte cfg (HDLC_FLAG cfg) s = Some s'
    ∧ s' = set_receivingStatus false (receivedSTOP s)
    ∧ calls s' = calls s ++ [IntDisable_RFCORERTX; CC2538_RF_CSP_ISFLUSHRX]
    ∧ (∀ b, interruptEnabled b (calls s') = false)
    ∧ (led_green s', led_yellow s', led_orange s', led_red s')
      = (false, false, false, false)
    ∧ (bufferIndexRadio s', bufferIndexSerialSend s',
       bufferIndexAcked s', seqNr s') = (0, 0, 0, 0)
    ∧ previousReceivedIndex s' = previousReceivedIndex s.
Proof.
  intros Hrecv Haccepted Htype Hlen Hack Hnack Hreset.
  eexists. split.
  - rewrite processByte_flag_receiving by done.
    rewrite (receivedEndByte_checks cfg (STOP_MESSAGE_LENGTH cfg) s);
      [| | done].
    + rewrite decide_True by done.
      unfold decodeReceivedMessage. rewrite Htype, Hlen. simpl.
      rewrite !decide_False by tauto. rewrite decide_True by done.
      reflexivity.
    + destruct Haccepted as (_ & Hfour & _). lia.
  - simpl. repeat apply conj; try reflexivity.
    + by rewrite <- app_assoc.
    + intros b. rewrite <- app_assoc. by rewrite interruptEnabled_app.
Qed.

(** A Stop frame while the fault LED is on. *)
Lemma stop_frame_halts_witness :
  ∃ s', processByte Example.config 0x7E
          (receivedInvalidMessage (Example.state [4; 2] 5 5 9 9)) = Some s'
    ∧ s' = set_receivingStatus false
             (receivedSTOP
                (receivedInvalidMessage (Example.state [4; 2] 5 5 9 9)))
    ∧ calls s' = [IntDisable_RFCORERTX; CC2538_RF_CSP_ISFLUSHRX]
    ∧ (∀ b, interruptEnabled b (calls s') = false)
    ∧ (led_green s', led_yellow s', led_orange s', led_red s')
      = (false, false, false, false)
    ∧ (bufferIndexRadio s', bufferIndexSerialSend s',
       bufferIndexAcked s', seqNr s') = (0, 0, 0, 0)
    ∧ previousReceivedIndex s' = 5.
Proof.
  apply (stop_frame_halts Example.config
           (receivedInvalidMessage (Example.state [4; 2] 5 5 9 9)));
    try reflexivity; try discriminate.
  repeat apply conj; try reflexivity; discriminate.
Defined.

(** X15.  No sequence of bytes, delimiters included, makes the receive path
    write the packet buffer or resize the message array; the radio index
    and the sequence number are either left as they are or set to zero. *)
Theorem receive_path_keeps_buffers
    (cfg : Config) (bytes : list Z) (s s' : State) :
  processBytes cfg bytes s = Some s' →
  buffer s' = buffer s
  ∧ length (message s') = length (message s)
  ∧ (bufferIndexRadio s' = bufferIndexRadio s ∨ bufferIndexRadio s' = 0)
  ∧ (seqNr s' = seqNr s ∨ seqNr s' = 0).
Proof.
  change (processBytes cfg bytes s = Some s' → sameBuffers s s').
  revert s. induction bytes as [| byte rest IH]; intros s; simpl.
  - intros [= <-]. apply sameBuffers_refl.
  - destruct (processByte cfg byte s) as [s1|] eqn:Hstep; simpl;
      [| discriminate].
    intros Hrest. apply (sameBuffers_trans s s1).
    + by apply (processByte_sameBuffers cfg byte).
    + by apply IH.
Qed.

(** A Reset frame for channel 11 followed by noise: the radio index and the
    sequence number are zero afterwards, the packet buffer is the same. *)
Lemma receive_path_keeps_buffers_witness :
  ∃ s', processBytes Example.config [0x7E; 42]
          (Example.state (Example.reset 11) 5 5 9 9) = Some s'
    ∧ buffer s' = Example.packets
    ∧ length (message s') = 16%nat
    ∧ (bufferIndexRadio s' = 9 ∨ bufferIndexRadio s' = 0)
    ∧ (seqNr s' = 3 ∨ seqNr s' = 0).
Proof.
  eexists. split; [vm_compute; reflexivity |].
  apply (receive_path_keeps_buffers Example.config [0x7E; 42]
           (Example.state (Example.reset 11) 5 5 9 9)).
  vm_compute. reflexivity.
Defined.
